(** * ai_detecter: segmentation, analysis pipeline and report rendering

    A shallow embedding of [ai_detector.py] and [webapp.py].

    Conventions of the embedding.
    - A Python [str] is a list of Unicode code points ([N]); [lit] turns an
      ASCII literal into such a list.
    - A Python [float] (scores, page coordinates) is a rational number of
      [Q]; arithmetic is exact.
    - The text-classification pipeline of [transformers] is an external
      capability: a value of type [Pipe], called with a single string or
      with a list of strings, that returns one prediction per input or
      raises.  Loading it may raise as well.
    - Functions that load or call the pipeline, or print, run in the monad
      [M]: explicit state (the [lru_cache] slot, the log of pipeline calls,
      standard output) and Python exceptions as an error outcome. *)

From Stdlib Require Import List NArith ZArith QArith Qround Bool Lia Lqa.
From Stdlib Require Import Strings.String Strings.Ascii DecimalString.
Import ListNotations.

(** ** Python strings *)

Module Py.

Definition char := N.
Definition str := list char.

Definition lit (s : string) : str :=
  List.map N_of_ascii (list_ascii_of_string s).

Local Open Scope N_scope.

(** [str.isspace] on one code point; this is also the class [\s] of [re] on
    [str] patterns and the set [str.strip] removes. *)
Definition isspace (c : char) : bool :=
  ((0x09 <=? c) && (c <=? 0x0D))
  || ((0x1C <=? c) && (c <=? 0x20))
  || (c =? 0x85) || (c =? 0xA0) || (c =? 0x1680)
  || ((0x2000 <=? c) && (c <=? 0x200A))
  || (c =? 0x2028) || (c =? 0x2029) || (c =? 0x202F)
  || (c =? 0x205F) || (c =? 0x3000).

Definition LF : char := 10.

Local Close Scope N_scope.

(** Truth value of a string: non-empty. *)
Definition truthy (s : str) : bool :=
  match s with
  | [] => false
  | _ :: _ => true
  end.

Fixpoint lstrip (s : str) : str :=
  match s with
  | [] => []
  | c :: r => if isspace c then lstrip r else s
  end.

Definition rstrip (s : str) : str := rev (lstrip (rev s)).

(** [s.strip()] *)
Definition strip (s : str) : str := rstrip (lstrip s).

(** Prepend a character to the first piece of a split under construction. *)
Definition cons_hd (c : char) (pieces : list str) : list str :=
  match pieces with
  | [] => [[c]]
  | p :: ps => (c :: p) :: ps
  end.

(** [s.split('\n\n')]: non-overlapping occurrences, leftmost first. *)
Fixpoint split_blank_line (s : str) : list str :=
  match s with
  | [] => [[]]
  | c :: r =>
      match r with
      | d :: r' =>
          if (N.eqb c LF && N.eqb d LF)%bool
          then [] :: split_blank_line r'
          else cons_hd c (split_blank_line r)
      | [] => [[c]]
      end
  end.

(** ['\n'.join(parts)] *)
Fixpoint join_lines (parts : list str) : str :=
  match parts with
  | [] => []
  | [p] => p
  | p :: ps => p ++ LF :: join_lines ps
  end.

End Py.

Import Py.

(** ** Segmenter *)

(** [[.!?]] *)
Definition terminal (c : char) : bool :=
  (N.eqb c 46 || N.eqb c 33 || N.eqb c 63)%bool.

(** Scanner state of [re.split(r'(?<=[.!?])\s+', text)]: the look-behind
    needs the previous character, and [\s+] consumes a whole run. *)
Inductive scan : Type :=
| Plain      (* previous character is not a terminal mark (or none) *)
| AfterMark  (* previous character is one of . ! ? *)
| InGap.     (* inside a separator that is being consumed *)

Fixpoint re_split_from (st : scan) (s : str) : list str :=
  match s with
  | [] => [[]]
  | c :: r =>
      if isspace c then
        match st with
        | InGap => re_split_from InGap r
        | AfterMark => [] :: re_split_from InGap r
        | Plain => cons_hd c (re_split_from Plain r)
        end
      else
        cons_hd c (re_split_from (if terminal c then AfterMark else Plain) r)
  end.

Definition re_split (text : str) : list str := re_split_from Plain text.

Definition _split_sentences (text : str) : list str :=
  List.map strip (List.filter (fun s => truthy (strip s)) (re_split text)).

Definition _paragraphs_from_text (text : str) : list str :=
  List.map strip
    (List.filter (fun p => truthy (strip p)) (split_blank_line text)).

(** ** Exceptions, state and the monad of effectful code *)

Inductive PyExn : Type :=
| LibraryError (message : str)   (* raised inside transformers / docx *)
| IndexError.                    (* list index out of range *)

Inductive Outcome (A : Type) : Type :=
| Ok (a : A)
| Raise (e : PyExn).

Arguments Ok {A} a.
Arguments Raise {A} e.

(** One entry of the list a text-classification pipeline returns:
    [{'label': ..., 'score': ...}], the score in [0,1]. *)
Record Prediction : Type := mkPrediction {
  pred_label : str;
  pred_score : Q
}.

(** A pipeline is called with one string or with a list of strings. *)
Inductive PipeInput : Type :=
| Single (text : str)
| Batch (texts : list str).

Record PipeCall : Type := mkCall {
  call_input : PipeInput;
  call_truncation : bool;
  call_max_length : nat
}.

Definition Pipe : Type := PipeCall -> Outcome (list Prediction).

Record World : Type := mkWorld {
  cache : option Pipe;      (* the slot of [lru_cache(maxsize=1)] *)
  calls : list PipeCall;    (* pipeline calls made so far, oldest first *)
  stdout : list str         (* arguments of [print], oldest first *)
}.

Definition M (A : Type) : Type := World -> Outcome A * World.

Definition ret {A} (a : A) : M A := fun w => (Ok a, w).

Definition bind {A B} (m : M A) (k : A -> M B) : M B :=
  fun w =>
    match m w with
    | (Ok a, w') => k a w'
    | (Raise e, w') => (Raise e, w')
    end.

Definition lift {A} (o : Outcome A) : M A := fun w => (o, w).

Notation "x <- m ;; k" := (bind m (fun x => k))
  (at level 61, m at next level, right associativity).
Notation "m ;;; k" := (bind m (fun _ => k))
  (at level 61, right associativity).

Definition print (s : str) : M unit :=
  fun w => (Ok tt, mkWorld (cache w) (calls w) (stdout w ++ [s])).

(** [pipe(input, truncation=..., max_length=...)] *)
Definition call_pipe (pipe : Pipe) (input : PipeInput)
    (truncation : bool) (max_length : nat) : M (list Prediction) :=
  fun w =>
    let c := mkCall input truncation max_length in
    (pipe c, mkWorld (cache w) (calls w ++ [c]) (stdout w)).

(** [xs[i]] *)
Definition getitem {A} (xs : list A) (i : nat) : Outcome A :=
  match nth_error xs i with
  | Some x => Ok x
  | None => Raise IndexError
  end.

Fixpoint str_eqb (a b : str) : bool :=
  match a, b with
  | [], [] => true
  | x :: a', y :: b' => N.eqb x y && str_eqb a' b'
  | _, _ => false
  end.

(** [a > b] on floats *)
Definition Qgtb (a b : Q) : bool := negb (Qle_bool a b).
Definition Qltb (a b : Q) : bool := negb (Qle_bool b a).

(** ** Formatting a float with [:.2f] *)

Definition digit (d : N) : char := (48 + d)%N.

Definition decimal (n : N) : str :=
  lit (NilZero.string_of_uint (N.to_uint n)).

(** The value rounded to hundredths, ties to even, as a number of
    hundredths. *)
Definition round_hundredths (q : Q) : N :=
  let a := (Z.abs_N (Qnum q) * 100)%N in
  let b := Npos (Qden q) in
  let f := (a / b)%N in
  let r := (a mod b)%N in
  if ((b <? 2 * r) || ((b =? 2 * r) && N.odd f))%N then (f + 1)%N else f.

Definition format_2f (q : Q) : str :=
  let h := round_hundredths q in
  (if Qltb q 0 then lit "-" else [])
    ++ decimal (h / 100)%N
    ++ lit "." ++ [digit ((h mod 100) / 10)%N; digit (h mod 10)%N].

(** ** ai_detector.py *)

Record SentenceResult : Type := mkSentence {
  sent_sentence : str;
  sent_label : str;
  sent_score : Q;
  sent_originality : Q
}.

Record AnalysisResult : Type := mkAnalysis {
  label : str;
  score : Q;
  originality : Q;
  text : str;
  sentences : list SentenceResult;
  paragraphs : list str
}.

Section Detector.

(** What [pipeline("text-classification", model="roberta-base-openai-detector")]
    does when it is run: it returns a pipeline or raises. *)
Variable pipeline : Outcome Pipe.

Definition _load_detector_pipe : M Pipe :=
  fun w =>
    match cache w with
    | Some pipe => (Ok pipe, w)
    | None =>
        let '(_, w1) :=
          print (lit "Loading Model... (First time it will take time)") w in
        match pipeline with
        | Ok pipe => (Ok pipe, mkWorld (Some pipe) (calls w1) (stdout w1))
        | Raise e => (Raise e, w1)
        end
    end.

(** The comprehension of [analyze_sentences]:
    [[{...sentences[idx]...} for idx, result in enumerate(results)]]. *)
Fixpoint sentence_entries (sentences : list str) (idx : nat)
    (results : list Prediction) : Outcome (list SentenceResult) :=
  match results with
  | [] => Ok []
  | result :: rest =>
      match getitem sentences idx with
      | Raise e => Raise e
      | Ok s =>
          match sentence_entries sentences (S idx) rest with
          | Raise e => Raise e
          | Ok entries =>
              Ok (mkSentence s (pred_label result)
                    (pred_score result * 100)
                    (100 - pred_score result * 100) :: entries)
          end
      end
  end.

Definition analyze_sentences (text : str) : M (list SentenceResult) :=
  let sentences := _split_sentences text in
  match sentences with
  | [] => ret []
  | _ :: _ =>
      pipe <- _load_detector_pipe ;;
      results <- call_pipe pipe (Batch sentences) true 512 ;;
      lift (sentence_entries sentences 0 results)
  end.

Definition analyze_text (text : str) : M AnalysisResult :=
  pipe <- _load_detector_pipe ;;
  result <- call_pipe pipe (Single text) true 512 ;;
  first <- lift (getitem result 0) ;;
  let label := pred_label first in
  let score := pred_score first * 100 in
  sentences <- analyze_sentences text ;;
  ret (mkAnalysis label score (100 - score) text sentences
         (_paragraphs_from_text text)).

Definition RED_CIRCLE : char := 0x1F534%N.
Definition GREEN_CIRCLE : char := 0x1F7E2%N.

Definition detect_ai_content (text : str) : M AnalysisResult :=
  analysis <- analyze_text text ;;
  let score := score analysis in
  let label := label analysis in
  print (LF :: lit "--- Analysis Result ---") ;;;
  (if str_eqb label (lit "Fake") then
     print (RED_CIRCLE :: lit " ALERT: This text is likely AI Generated!") ;;;
     print (lit "Confidence Score: " ++ format_2f score ++ lit "%") ;;;
     if Qgtb score 98 then
       print (lit "Possible Source: High probability of GPT-4 or Claude (Very structured)")
     else if Qgtb score 90 then
       print (lit "Possible Source: ChatGPT (GPT-3.5) or Gemini")
     else
       print (lit "Possible Source: Basic AI tool or Paraphrasing tool")
   else
     print (GREEN_CIRCLE :: lit " This text looks Human Written.") ;;;
     print (lit "Confidence Score: " ++ format_2f score ++ lit "%")) ;;;
  ret analysis.

End Detector.

(** A Word document as [docx] exposes it: its paragraphs, each with a
    [text]. *)
Record Paragraph : Type := mkParagraph { par_text : str }.
Record Document : Type := mkDocument { doc_paragraphs : list Paragraph }.

Definition _text_from_document (document : Document) : str :=
  let paragraphs :=
    List.map par_text
      (List.filter (fun p => truthy (strip (par_text p)))
         (doc_paragraphs document)) in
  join_lines paragraphs.

Section Docx.

(** What [Document(...)] of [docx] does for a path and for the bytes of a
    file: it returns the parsed document or raises. *)
Variables Path Bytes : Type.
Variable Document_of_path : Path -> Outcome Document.
Variable Document_of_bytes : Bytes -> Outcome Document.

Definition read_docx_file (path : Path) : M str :=
  document <- lift (Document_of_path path) ;;
  ret (_text_from_document document).

Definition read_docx_bytes (contents : Bytes) : M str :=
  document <- lift (Document_of_bytes contents) ;;
  ret (_text_from_document document).

End Docx.

Arguments read_docx_file {Path} Document_of_path path.
Arguments read_docx_bytes {Bytes} Document_of_bytes contents.

(** ** webapp.py *)

(** The interpretation paragraph of [TEMPLATE]. *)
Definition TEMPLATE_interpretation (result : AnalysisResult) : str :=
  if Qgtb (score result) 98 then
    lit "Possible Source: GPT-4 / Claude (very structured)"
  else if Qgtb (score result) 90 then
    lit "Possible Source: ChatGPT / Gemini class models"
  else if str_eqb (label result) (lit "Fake") then
    lit "Possible Source: Basic AI/paraphrasing tool"
  else
    lit "Looks convincingly human-written.".

(** reportlab's units and page size ([reportlab.lib.units],
    [reportlab.lib.pagesizes]). *)
Module Reportlab.
Definition inch : Q := 72.
Definition cm : Q := inch / 2.54.
Definition mm : Q := cm * 0.1.
Definition A4 : Q * Q := (210 * mm, 297 * mm).
End Reportlab.

(** Operations on a reportlab canvas, in the order they are issued. *)
Inductive CanvasOp : Type :=
| SetFont (name : str) (size : Q)
| DrawString (x y : Q) (s : str)
| ShowPage
| Save.

Section Report.

(** [textwrap.wrap(text, width)] of the standard library. *)
Variable wrap : str -> nat -> list str.

(** The loop of [_create_pdf_report] over the wrapped lines, started with
    the cursor at [y]. *)
Fixpoint draw_wrapped (page_height margin y : Q) (lines : list str)
    : list CanvasOp :=
  match lines with
  | [] => []
  | line :: rest =>
      let '(break, y1) :=
        if Qltb y (margin + 20)
        then ([ShowPage; SetFont (lit "Helvetica") 10], page_height - margin)
        else ([], y) in
      break ++ DrawString margin y1 line
        :: draw_wrapped page_height margin (y1 - 14) rest
  end.

Definition _create_pdf_report (analysis : AnalysisResult) : list CanvasOp :=
  let '(page_width, page_height) := Reportlab.A4 in
  let margin : Q := 40 in
  let y := page_height - margin in
  let title :=
    [SetFont (lit "Helvetica-Bold") 20;
     DrawString margin y (lit "AI Content Detector Report")] in
  let y := y - 30 in
  let result_line :=
    [SetFont (lit "Helvetica") 12;
     DrawString margin y (lit "Result: " ++ label analysis)] in
  let y := y - 16 in
  let confidence_line :=
    [DrawString margin y
       (lit "Confidence: " ++ format_2f (score analysis) ++ lit "%")] in
  let y := y - 24 in
  let section_header :=
    [SetFont (lit "Helvetica-Bold") 14;
     DrawString margin y (lit "Analyzed Text")] in
  let y := y - 18 in
  title ++ result_line ++ confidence_line ++ section_header
    ++ SetFont (lit "Helvetica") 10
    :: draw_wrapped page_height margin y (wrap (text analysis) 90)
    ++ [ShowPage; Save].

(** Every [showPage] closes a page; nothing is drawn after the last one, so
    [save] adds none. *)
Definition page_count (ops : list CanvasOp) : nat :=
  List.length
    (List.filter (fun op => match op with ShowPage => true | _ => false end)
       ops).

Variable pipeline : Outcome Pipe.

Inductive Response : Type :=
| TextResponse (body : str) (status : nat)
| SendFile (pdf : list CanvasOp) (download_name mimetype : str).

(** The view [report]; [form_text] is the field ["text"] of the posted form,
    if present. *)
Definition report (form_text : option str) : M Response :=
  let text := strip (match form_text with Some t => t | None => [] end) in
  if negb (truthy text) then
    ret (TextResponse (lit "Text is required for report generation") 400)
  else
    analysis <- analyze_text pipeline text ;;
    let pdf_bytes := _create_pdf_report analysis in
    ret (SendFile pdf_bytes (lit "ai_detection_report.pdf")
           (lit "application/pdf")).

End Report.

Section Index.

Variable pipeline : Outcome Pipe.

(** [str.lower] and [Document(BytesIO(contents))]. *)
Variable lower : str -> str.
Variable Bytes : Type.
Variable Document_of_bytes : Bytes -> Outcome Document.

Definition endswith (s suffix : str) : bool :=
  str_eqb (skipn (List.length s - List.length suffix) s) suffix.

Inductive Method : Type := GET | POST.

Record Upload : Type := mkUpload {
  filename : str;
  contents : Bytes
}.

Record Request : Type := mkRequest {
  method : Method;
  files_document : option Upload;
  form_text : option str
}.

(** The variables handed to [render_template_string]. *)
Record Page : Type := mkPage {
  page_error : option str;
  page_result : option AnalysisResult;
  page_submitted_text : str
}.

Definition index (request : Request) : M Page :=
  match method request with
  | GET => ret (mkPage None None [])
  | POST =>
      let uploaded := files_document request in
      let submitted_text :=
        strip (match form_text request with Some t => t | None => [] end) in
      state <-
        match
          match uploaded with
          | Some up => if truthy (filename up) then Some up else None
          | None => None
          end
        with
        | Some up =>
            if negb (endswith (lower (filename up)) (lit ".docx")) then
              ret (Some (lit "Please upload a .docx file."), submitted_text)
            else
              extracted <- read_docx_bytes Document_of_bytes (contents up) ;;
              ret (None, extracted)
        | None =>
            if negb (truthy submitted_text) then
              ret (Some (lit "Provide text or upload a document."),
                   submitted_text)
            else ret (None, submitted_text)
        end ;;
      let '(error, submitted_text) := state in
      match error with
      | Some _ => ret (mkPage error None submitted_text)
      | None =>
          result <- analyze_text pipeline submitted_text ;;
          ret (mkPage error (Some result) submitted_text)
      end
  end.

End Index.

Arguments mkUpload {Bytes} filename contents.
Arguments filename {Bytes} u.
Arguments contents {Bytes} u.
Arguments mkRequest {Bytes} method files_document form_text.
Arguments method {Bytes} r.
Arguments files_document {Bytes} r.
Arguments form_text {Bytes} r.
Arguments index pipeline lower {Bytes} Document_of_bytes request.

(** ** ai_detector.py: the command line *)

Section Main.

Variable pipeline : Outcome Pipe.

(** [str.lower]; and [pathlib.Path] as [main] uses it: [exists()],
    [suffix], the text an f-string shows, and what [Document(path)] does. *)
Variable lower : str -> str.
Variable Path : Type.
Variable path_exists : Path -> bool.
Variable path_suffix : Path -> str.
Variable path_str : Path -> str.
Variable Document_of_path : Path -> Outcome Document.

(** The namespace [parse_args] returns. *)
Record Args : Type := mkArgs {
  args_text : option str;
  args_doc : option Path
}.

(** Standard input: a terminal, with the lines the user is going to type,
    or a pipe or file, with its content. *)
Inductive Stdin : Type :=
| Terminal (answers : list str)
| Piped (content : str).

(** How [main] ends: it returns, or an exception leaves it. *)
Inductive Exit : Type :=
| Returned
| Uncaught (e : PyExn)
| UncaughtEOFError.

(** The loop [while not text: text = input(...).strip()]: the text, if the
    answers do not run out, and the prompts shown. *)
Fixpoint ask_again (answers : list str) : option str * list str :=
  match answers with
  | [] => (None, [lit "Text cannot be empty. Try again: "])
  | answer :: rest =>
      let text := strip answer in
      if truthy text then (Some text, [lit "Text cannot be empty. Try again: "])
      else
        let '(text, prompts) := ask_again rest in
        (text, lit "Text cannot be empty. Try again: " :: prompts)
  end.

(** [text = input("Enter text to analyze: ").strip()] and the loop. *)
Definition ask (answers : list str) : option str * list str :=
  match answers with
  | [] => (None, [lit "Enter text to analyze: "])
  | answer :: rest =>
      let text := strip answer in
      if truthy text then (Some text, [lit "Enter text to analyze: "])
      else
        let '(text, prompts) := ask_again rest in
        (text, lit "Enter text to analyze: " :: prompts)
  end.

(** [main], after [parse_args]: its exit, the prompts shown on the
    terminal, and the world it leaves. *)
Definition main (args : Args) (stdin : Stdin) (w : World)
    : Exit * list str * World :=
  let resolved : (Exit + str) * list str * World :=
    match args_doc args with
    | Some doc =>
        if negb (path_exists doc) then
          (inl Returned, [],
           snd (print (lit "Document not found: " ++ path_str doc) w))
        else if negb (str_eqb (lower (path_suffix doc)) (lit ".docx")) then
          (inl Returned, [],
           snd (print (lit "Only .docx files are supported.") w))
        else
          match read_docx_file Document_of_path doc w with
          | (Ok text, w1) => (inr text, [], w1)
          | (Raise e, w1) => (inl (Uncaught e), [], w1)
          end
    | None =>
        match
          match args_text args with
          | Some t => if truthy t then Some t else None
          | None => None
          end
        with
        | Some t => (inr (strip t), [], w)
        | None =>
            match stdin with
            | Terminal answers =>
                match ask answers with
                | (Some text, prompts) => (inr text, prompts, w)
                | (None, prompts) => (inl UncaughtEOFError, prompts, w)
                end
            | Piped content => (inr (strip content), [], w)
            end
        end
    end in
  match resolved with
  | (inl exit, prompts, w1) => (exit, prompts, w1)
  | (inr text, prompts, w1) =>
      if negb (truthy text) then
        (Returned, prompts, snd (print (lit "No text provided. Exiting.") w1))
      else
        match detect_ai_content pipeline text w1 with
        | (Ok _, w2) => (Returned, prompts, w2)
        | (Raise e, w2) => (Uncaught e, prompts, w2)
        end
  end.

End Main.

Arguments mkArgs {Path} args_text args_doc.
Arguments args_text {Path} a.
Arguments args_doc {Path} a.
Arguments main pipeline lower {Path} path_exists path_suffix path_str
  Document_of_path args stdin w.

(** ** Notions used to state the properties *)

(** The pipeline the next load yields: the cached one if the slot is
    filled, otherwise whatever [pipeline(...)] does. *)
Definition current_pipe (pipeline : Outcome Pipe) (w : World)
    : Outcome Pipe :=
  match cache w with
  | Some pipe => Ok pipe
  | None => pipeline
  end.

Definition doc_call (text : str) : PipeCall :=
  mkCall (Single text) true 512.

Definition batch_call (sentences : list str) : PipeCall :=
  mkCall (Batch sentences) true 512.

(** The world after one more pipeline call, and after a load. *)
Definition logged (c : PipeCall) (w : World) : World :=
  mkWorld (cache w) (calls w ++ [c]) (stdout w).

Definition loaded (pipeline : Outcome Pipe) (w : World) : World :=
  snd (_load_detector_pipe pipeline w).

(** A deterministic stand-in for the classifier: one prediction for a
    document, a fixed list of predictions for a batch. *)
Definition stub_pipe (doc : Prediction) (per_sentence : list Prediction)
    : Pipe :=
  fun c =>
    match call_input c with
    | Single _ => Ok [doc]
    | Batch _ => Ok per_sentence
    end.

(** A process that has not loaded the model yet. *)
Definition fresh : World := mkWorld None [] [].

(** Sample classifiers and texts. *)
Definition human_stub : Pipe :=
  stub_pipe (mkPrediction (lit "Human") 0.12)
    [mkPrediction (lit "Human") 0.10; mkPrediction (lit "Human") 0.15].

Definition fake_stub : Pipe :=
  stub_pipe (mkPrediction (lit "Fake") 0.995) [mkPrediction (lit "Fake") 0.97].

Definition real_stub : Pipe :=
  stub_pipe (mkPrediction (lit "Real") 0.99) [mkPrediction (lit "Real") 0.99].

Definition failing_pipe (e : PyExn) : Pipe := fun _ => Raise e.

Definition quirky : str :=
  lit "This is obviously written by a human with quirky style!! I think so, yes.".

Definition one_sentence : str := lit "Generated text.".

Definition entry_of (s : str) (p : Prediction) : SentenceResult :=
  mkSentence s (pred_label p) (pred_score p * 100)
    (100 - pred_score p * 100).

Definition starts_with_space (s : str) : bool :=
  match s with
  | c :: _ => isspace c
  | [] => false
  end.

Definition ends_with_space (s : str) : bool := starts_with_space (rev s).

Definition blank (s : str) : bool := forallb isspace s.

(** Sentence boundaries, from the words of the specification: a boundary
    is a run of whitespace directly after a terminal mark. *)

(** No whitespace character directly follows a terminal mark inside [s]. *)
Fixpoint boundary_free (s : str) : bool :=
  match s with
  | c :: r =>
      negb (terminal c && starts_with_space r) && boundary_free r
  | [] => true
  end.

(** The last character of [s] is a terminal mark. *)
Fixpoint ends_with_mark (s : str) : bool :=
  match s with
  | [] => false
  | [c] => terminal c
  | _ :: r => ends_with_mark r
  end.

(** [Sentences text pieces]: [pieces] are the fragments of [text] between
    its boundaries, each boundary being a whole run of whitespace. *)
Inductive Sentences : str -> list str -> Prop :=
| sentences_last (p : str) :
    boundary_free p = true ->
    Sentences p [p]
| sentences_cut (p gap rest : str) (pieces : list str) :
    boundary_free p = true ->
    ends_with_mark p = true ->
    gap <> [] ->
    blank gap = true ->
    starts_with_space rest = false ->
    Sentences rest pieces ->
    Sentences (p ++ gap ++ rest) (p :: pieces).

(** Paragraph boundaries: two consecutive line breaks. *)
Fixpoint has_blank_line (s : str) : bool :=
  match s with
  | c :: r =>
      (N.eqb c LF
       && match r with d :: _ => N.eqb d LF | [] => false end)
      || has_blank_line r
  | [] => false
  end.

(** [Paragraphs text pieces]: [pieces] are the fragments of [text] between
    its blank lines, taken leftmost first. *)
Inductive Paragraphs : str -> list str -> Prop :=
| paragraphs_last (p : str) :
    has_blank_line p = false ->
    Paragraphs p [p]
| paragraphs_cut (p rest : str) (pieces : list str) :
    has_blank_line (p ++ [LF]) = false ->
    Paragraphs rest pieces ->
    Paragraphs (p ++ LF :: LF :: rest) (p :: pieces).

(** ['\n\n'.join(pieces)] *)
Fixpoint join_blank_line (pieces : list str) : str :=
  match pieces with
  | [] => []
  | [p] => p
  | p :: ps => p ++ LF :: LF :: join_blank_line ps
  end.

(** The tiers of the console summary and of the page. *)
Inductive Tier : Type := TopTier | MidTier | BasicTool | HumanWritten.

Definition is_fake (label : str) : bool := str_eqb label (lit "Fake").

(** The selection as the specification words it: thresholds first, the
    label only below them. *)
Definition spec_tier (label : str) (score : Q) : Tier :=
  if Qgtb score 98 then TopTier
  else if Qgtb score 90 then MidTier
  else if is_fake label then BasicTool
  else HumanWritten.

(** The selection the console makes: the label first, thresholds only for
    the AI label. *)
Definition console_tier (label : str) (score : Q) : Tier :=
  if is_fake label then
    if Qgtb score 98 then TopTier
    else if Qgtb score 90 then MidTier
    else BasicTool
  else HumanWritten.

Definition console_message (t : Tier) : str :=
  match t with
  | TopTier =>
      lit "Possible Source: High probability of GPT-4 or Claude (Very structured)"
  | MidTier => lit "Possible Source: ChatGPT (GPT-3.5) or Gemini"
  | BasicTool => lit "Possible Source: Basic AI tool or Paraphrasing tool"
  | HumanWritten => GREEN_CIRCLE :: lit " This text looks Human Written."
  end.

Definition page_message (t : Tier) : str :=
  match t with
  | TopTier => lit "Possible Source: GPT-4 / Claude (very structured)"
  | MidTier => lit "Possible Source: ChatGPT / Gemini class models"
  | BasicTool => lit "Possible Source: Basic AI/paraphrasing tool"
  | HumanWritten => lit "Looks convincingly human-written."
  end.

Definition confidence_line (score : Q) : str :=
  lit "Confidence Score: " ++ format_2f score ++ lit "%".

Definition ALERT : str :=
  RED_CIRCLE :: lit " ALERT: This text is likely AI Generated!".

(** The lines [detect_ai_content] prints after the analysis. *)
Definition console_summary (r : AnalysisResult) : list str :=
  (LF :: lit "--- Analysis Result ---")
  :: match console_tier (label r) (score r) with
     | HumanWritten =>
         [console_message HumanWritten; confidence_line (score r)]
     | tier => [ALERT; confidence_line (score r); console_message tier]
     end.

Definition printed (lines : list str) (w : World) : World :=
  mkWorld (cache w) (calls w) (stdout w ++ lines).

Definition is_digit (c : char) : bool := ((48 <=? c) && (c <=? 57))%N.

(** A number printed with two decimal places: an optional sign, at least
    one digit, a point, two digits. *)
Definition two_decimals (s : str) : Prop :=
  exists sign whole d1 d2,
    s = sign ++ whole ++ lit "." ++ [d1; d2]
    /\ (sign = [] \/ sign = lit "-")
    /\ whole <> []
    /\ forallb is_digit whole = true
    /\ is_digit d1 = true /\ is_digit d2 = true.

(** Pagination: the cursor positions of the report. *)
Definition page_height : Q := snd Reportlab.A4.
Definition margin : Q := 40.
Definition bottom_limit : Q := margin + 20.
Definition top_of_page : Q := page_height - margin.
Definition text_start : Q := top_of_page - 30 - 16 - 24 - 18.

(** How many lines 14 points apart fit from [top] down to [bottom]. *)
Definition lines_that_fit (top bottom : Q) : nat :=
  Z.to_nat (Qfloor ((top - bottom) / 14) + 1).

Definition first_page_budget : nat := lines_that_fit text_start bottom_limit.
Definition full_page_budget : nat := lines_that_fit top_of_page bottom_limit.

(** The heading of the report: everything drawn before the wrapped text. *)
Definition header_ops (analysis : AnalysisResult) : list CanvasOp :=
  [SetFont (lit "Helvetica-Bold") 20;
   DrawString margin top_of_page (lit "AI Content Detector Report");
   SetFont (lit "Helvetica") 12;
   DrawString margin (top_of_page - 30) (lit "Result: " ++ label analysis);
   DrawString margin (top_of_page - 30 - 16)
     (lit "Confidence: " ++ format_2f (score analysis) ++ lit "%");
   SetFont (lit "Helvetica-Bold") 14;
   DrawString margin (top_of_page - 30 - 16 - 24) (lit "Analyzed Text");
   SetFont (lit "Helvetica") 10].

(** The number of lines as a rational. *)
Definition count (lines : list str) : Q :=
  inject_Z (Z.of_nat (List.length lines)).

(** A stand-in for [textwrap.wrap]: one character per line. *)
Definition one_per_line (s : str) (width : nat) : list str :=
  List.map (fun c => [c]) s.

Definition no_line_break (s : str) : bool :=
  forallb (fun c => negb (N.eqb c LF)) s.

Definition drawn_at (op : CanvasOp) : option Q :=
  match op with
  | DrawString _ y _ => Some y
  | _ => None
  end.

(** Statements of the specification that the code does not satisfy, as the
    specification words them. *)


(** Blank input makes the analysis fail, without any classification call. *)
Definition blank_input_is_rejected : Prop :=
  forall pipeline t w,
    blank t = true ->
    exists e w', analyze_text pipeline t w = (Raise e, w')
                 /\ calls w' = calls w.

(** The label of a result is a value of the enumeration [{Human, AI}]. *)
Definition labels_are_enum_values : Prop :=
  forall pipeline t w r w',
    analyze_text pipeline t w = (Ok r, w') ->
    label r = lit "Human" \/ label r = lit "AI".

(** The console prints the message of the tier the thresholds select. *)
Definition console_follows_thresholds : Prop :=
  forall pipeline t w r w',
    detect_ai_content pipeline t w = (Ok r, w') ->
    In (console_message (spec_tier (label r) (score r)))
       (skipn (List.length (stdout w)) (stdout w')).

(** Notions for the further properties. *)

(** [Spaced parts s]: the [parts] occur in [s] in this order, and whatever
    is before, between and after them is whitespace. *)
Inductive Spaced : list str -> str -> Prop :=
| spaced_end (g : str) :
    blank g = true ->
    Spaced [] g
| spaced_part (g p rest : str) (parts : list str) :
    blank g = true ->
    Spaced parts rest ->
    Spaced (p :: parts) (g ++ p ++ rest).

Definition visible (s : str) : str :=
  List.filter (fun c => negb (isspace c)) s.

(** The strings a pipeline call hands to the classifier. *)
Definition call_texts (c : PipeCall) : list str :=
  match call_input c with
  | Single t => [t]
  | Batch ts => ts
  end.

(** The calls one analysis of [t] adds to the log. *)
Definition analysis_calls (pipeline : Outcome Pipe) (w : World) (t : str)
    : list PipeCall :=
  match current_pipe pipeline w with
  | Raise _ => []
  | Ok pipe =>
      doc_call t
      :: match pipe (doc_call t), _split_sentences t with
         | Ok (_ :: _), s :: ss => [batch_call (s :: ss)]
         | _, _ => []
         end
  end.

Definition LOADING : str :=
  lit "Loading Model... (First time it will take time)".

(** The strings a canvas shows, in drawing order. *)
Definition drawn_text (ops : list CanvasOp) : list str :=
  List.flat_map
    (fun op => match op with DrawString _ _ s => [s] | _ => [] end) ops.

Definition report_heading (analysis : AnalysisResult) : list str :=
  [lit "AI Content Detector Report";
   lit "Result: " ++ label analysis;
   lit "Confidence: " ++ format_2f (score analysis) ++ lit "%";
   lit "Analyzed Text"].

(** A pipeline that returns [k] predictions whatever it is given. *)
Definition fixed_pipe (k : nat) : Pipe :=
  fun _ => Ok (repeat (mkPrediction (lit "Real") 0.9) k).

Definition two_sentences : str := lit "One. Two.".

(** ** Strings: stripping *)

Lemma blank_app (a b : str) : blank (a ++ b) = blank a && blank b.
Proof. apply forallb_app. Qed.

Lemma blank_rev (s : str) : blank (rev s) = blank s.
Proof.
  induction s as [|c s IH]; [reflexivity|].
  cbn [rev]. rewrite blank_app, IH. cbn. rewrite andb_true_r.
  apply andb_comm.
Qed.

Lemma lstrip_blank_app (a s : str) :
  blank a = true -> lstrip (a ++ s) = lstrip s.
Proof.
  induction a as [|c a IH]; cbn; [reflexivity|].
  intros H. apply andb_true_iff in H as [Hc Ha].
  rewrite Hc. auto.
Qed.

Lemma lstrip_fixed (s : str) : starts_with_space s = false -> lstrip s = s.
Proof. destruct s as [|c s]; cbn; [reflexivity|]. now intros ->. Qed.

Lemma lstrip_decompose (s : str) :
  exists a, s = a ++ lstrip s /\ blank a = true
            /\ starts_with_space (lstrip s) = false.
Proof.
  induction s as [|c s (a & Hs & Ha & Hl)].
  - exists []. auto.
  - cbn [lstrip]. destruct (isspace c) eqn:Hc.
    + exists (c :: a). repeat split; auto.
      * cbn [app]. now rewrite <- Hs.
      * unfold blank in *. cbn [forallb]. now rewrite Hc.
    + exists []. cbn. auto.
Qed.

Lemma strip_decompose (s : str) :
  exists a b, s = a ++ strip s ++ b /\ blank a = true /\ blank b = true
              /\ starts_with_space (strip s) = false
              /\ ends_with_space (strip s) = false.
Proof.
  destruct (lstrip_decompose s) as (a & Hs & Ha & Hl).
  destruct (lstrip_decompose (rev (lstrip s))) as (b & Hr & Hb & Hrl).
  exists a, (rev b). unfold strip, rstrip, ends_with_space.
  rewrite rev_involutive, blank_rev. repeat split; auto.
  - rewrite <- rev_app_distr, <- Hr, rev_involutive. exact Hs.
  - remember (lstrip s) as m eqn:Hm.
    assert (Hm' : m = rev (lstrip (rev m)) ++ rev b).
    { rewrite <- rev_app_distr, <- Hr. now rewrite rev_involutive. }
    destruct (rev (lstrip (rev m))) as [|x t] eqn:Ht; [reflexivity|].
    rewrite Hm' in Hl. exact Hl.
Qed.

Lemma strip_unique (a m b : str) :
  blank a = true -> blank b = true ->
  starts_with_space m = false -> ends_with_space m = false ->
  strip (a ++ m ++ b) = m.
Proof.
  intros Ha Hb Hs He. unfold strip, rstrip.
  rewrite (lstrip_blank_app _ _ Ha).
  destruct m as [|c m].
  - cbn [app]. replace b with (b ++ []) by apply app_nil_r.
    now rewrite (lstrip_blank_app _ _ Hb).
  - rewrite (lstrip_fixed ((c :: m) ++ b)) by exact Hs.
    rewrite rev_app_distr, lstrip_blank_app by now rewrite blank_rev.
    rewrite lstrip_fixed by exact He. apply rev_involutive.
Qed.

Lemma strip_pad (a s b : str) :
  blank a = true -> blank b = true -> strip (a ++ s ++ b) = strip s.
Proof.
  intros Ha Hb.
  destruct (strip_decompose s) as (a' & b' & Hs & Ha' & Hb' & H1 & H2).
  rewrite Hs at 1.
  replace (a ++ (a' ++ strip s ++ b') ++ b)
    with ((a ++ a') ++ strip s ++ (b' ++ b))
    by now rewrite <- !app_assoc.
  apply strip_unique; auto; rewrite blank_app; now rewrite ?Ha, ?Ha', ?Hb, ?Hb'.
Qed.

Lemma strip_cons_space (c : char) (s : str) :
  isspace c = true -> strip (c :: s) = strip s.
Proof.
  intros Hc. rewrite <- (app_nil_r s) at 1.
  apply (strip_pad [c] s []); [|reflexivity].
  cbn. now rewrite Hc.
Qed.

Lemma strip_snoc_space (c : char) (s : str) :
  isspace c = true -> strip (s ++ [c]) = strip s.
Proof.
  intros Hc. apply (strip_pad [] s [c]); [reflexivity|].
  cbn. now rewrite Hc.
Qed.

Lemma strip_idempotent (s : str) : strip (strip s) = strip s.
Proof.
  destruct (strip_decompose s) as (a & b & _ & _ & _ & H1 & H2).
  rewrite <- (app_nil_r (strip s)) at 1.
  apply (strip_unique [] (strip s) []); auto.
Qed.

Lemma strip_blank (s : str) : blank s = true -> strip s = [].
Proof.
  intros H. rewrite <- (app_nil_r s).
  apply (strip_unique s [] []); auto.
Qed.

Lemma strip_nil_blank (s : str) : strip s = [] -> blank s = true.
Proof.
  intros H. destruct (strip_decompose s) as (a & b & Hs & Ha & Hb & _).
  rewrite Hs, H, !blank_app, Ha, Hb. reflexivity.
Qed.

Lemma truthy_strip (s : str) : truthy (strip s) = negb (blank s).
Proof.
  destruct (blank s) eqn:Hb.
  - now rewrite strip_blank.
  - destruct (strip s) eqn:Hs; [|reflexivity].
    apply strip_nil_blank in Hs. congruence.
Qed.

(** ** Sentence splitting *)

Lemma terminal_not_space (c : char) : terminal c = true -> isspace c = false.
Proof.
  unfold terminal. rewrite !orb_true_iff, !N.eqb_eq.
  intros [[-> | ->] | ->]; reflexivity.
Qed.

Lemma blank_no_mark (s : str) :
  blank s = true -> forallb (fun c => negb (terminal c)) s = true.
Proof.
  induction s as [|c s IH]; [reflexivity|].
  unfold blank in *. cbn [forallb]. rewrite !andb_true_iff.
  intros [Hc Hs]. split; [|auto].
  destruct (terminal c) eqn:Ht; [|reflexivity].
  apply terminal_not_space in Ht. congruence.
Qed.

Lemma no_mark_boundary_free (s : str) :
  forallb (fun c => negb (terminal c)) s = true -> boundary_free s = true.
Proof.
  induction s as [|c s IH]; [reflexivity|].
  cbn [forallb boundary_free]. rewrite !andb_true_iff.
  intros [Hc Hs]. split; [|auto].
  apply negb_true_iff in Hc. now rewrite Hc.
Qed.

Lemma re_split_gap (gap rest : str) :
  blank gap = true -> starts_with_space rest = false ->
  re_split_from InGap (gap ++ rest) = re_split_from Plain rest.
Proof.
  intros Hg Hr. induction gap as [|g gap IH].
  - destruct rest as [|d r]; [reflexivity|].
    cbn in Hr |- *. now rewrite Hr.
  - unfold blank in Hg. cbn [forallb] in Hg.
    apply andb_true_iff in Hg as [Hg Hgap].
    cbn [app re_split_from]. rewrite Hg. auto.
Qed.

Lemma re_split_single (p : str) :
  forall st,
    st = Plain \/ (st = AfterMark /\ starts_with_space p = false) ->
    boundary_free p = true ->
    re_split_from st p = [p].
Proof.
  induction p as [|c r IH]; intros st Hst Hb; [reflexivity|].
  cbn [boundary_free] in Hb. apply andb_true_iff in Hb as [Hc Hr].
  apply negb_true_iff in Hc.
  cbn [re_split_from]. destruct (isspace c) eqn:Hsp.
  - destruct Hst as [-> | [_ Hs]]; [|cbn in Hs; congruence].
    rewrite (IH Plain); auto.
  - rewrite (IH (if terminal c then AfterMark else Plain)); auto.
    destruct (terminal c); [right|left]; auto.
Qed.

Lemma re_split_cut (p gap rest : str) :
  forall st,
    st = Plain \/ (st = AfterMark /\ starts_with_space p = false) ->
    boundary_free p = true -> ends_with_mark p = true ->
    gap <> [] -> blank gap = true -> starts_with_space rest = false ->
    re_split_from st (p ++ gap ++ rest) = p :: re_split_from Plain rest.
Proof.
  intros st Hst Hb He Hne Hg Hrest. revert st Hst Hb He.
  induction p as [|c r IH]; intros st Hst Hb He; [discriminate|].
  cbn [boundary_free] in Hb. apply andb_true_iff in Hb as [Hc Hr].
  apply negb_true_iff in Hc.
  destruct r as [|d r'].
  - cbn [ends_with_mark] in He.
    pose proof (terminal_not_space c He) as Hsp.
    cbn [app re_split_from]. rewrite Hsp, He.
    destruct gap as [|g gap']; [congruence|].
    unfold blank in Hg. cbn [forallb] in Hg.
    apply andb_true_iff in Hg as [Hg Hgap].
    cbn [app re_split_from]. rewrite Hg.
    rewrite re_split_gap; auto.
  - assert (He' : ends_with_mark (d :: r') = true) by exact He.
    change ((c :: d :: r') ++ gap ++ rest)
      with (c :: ((d :: r') ++ gap ++ rest)).
    cbn [re_split_from]. destruct (isspace c) eqn:Hsp.
    + destruct Hst as [-> | [_ Hs]]; [|cbn in Hs; congruence].
      rewrite (IH Plain); auto.
    + rewrite (IH (if terminal c then AfterMark else Plain)); auto.
      destruct (terminal c); [right|left]; auto.
Qed.

Lemma sentences_sound (text : str) (pieces : list str) :
  Sentences text pieces -> re_split text = pieces.
Proof.
  unfold re_split. induction 1 as [p Hb | p gap rest pieces Hb He Hne Hg Hr _ IH].
  - apply re_split_single; auto.
  - rewrite re_split_cut; auto. now rewrite IH.
Qed.

Lemma first_boundary (s : str) :
  boundary_free s = false ->
  exists p gap rest,
    s = p ++ gap ++ rest /\ boundary_free p = true
    /\ ends_with_mark p = true /\ gap <> [] /\ blank gap = true
    /\ starts_with_space rest = false.
Proof.
  induction s as [|c r IH]; [discriminate|].
  cbn [boundary_free]. intros Hb.
  destruct (terminal c && starts_with_space r) eqn:Hc.
  - apply andb_true_iff in Hc as [Ht Hs].
    destruct (lstrip_decompose r) as (a & Hr & Ha & Hl).
    exists [c], a, (lstrip r). repeat split; auto.
    + cbn [app]. now rewrite <- Hr.
    + cbn. now rewrite andb_false_r.
    + intros ->. cbn [app] in Hr. rewrite <- Hr in Hl. congruence.
  - cbn [negb andb] in Hb.
    destruct (IH Hb) as (p & gap & rest & Hr & Hp & He & Hne & Hg & Hrest).
    exists (c :: p), gap, rest. repeat split; auto.
    + cbn [app]. now rewrite Hr.
    + cbn [boundary_free]. rewrite Hp, andb_true_r.
      destruct p as [|d p']; [discriminate|].
      rewrite Hr in Hc. cbn in Hc |- *. now rewrite Hc.
    + destruct p as [|d p']; [discriminate|]. exact He.
Qed.

Lemma sentences_complete (text : str) : Sentences text (re_split text).
Proof.
  assert (H : forall n s, (List.length s < n)%nat -> Sentences s (re_split s)).
  { induction n as [|n IH]; intros s Hn; [lia|].
    destruct (boundary_free s) eqn:Hb.
    - unfold re_split. rewrite re_split_single; auto.
      now apply sentences_last.
    - destruct (first_boundary s Hb)
        as (p & gap & rest & -> & Hp & He & Hne & Hg & Hrest).
      unfold re_split. rewrite re_split_cut; auto.
      apply sentences_cut; auto. apply IH.
      rewrite !length_app in Hn. destruct gap; [congruence|].
      cbn [List.length] in Hn. lia. }
  apply (H (S (List.length text))). lia.
Qed.

Lemma split_sentences_pieces (text : str) :
  _split_sentences text
  = List.map strip (List.filter (fun s => negb (blank s)) (re_split text)).
Proof.
  unfold _split_sentences. f_equal. apply filter_ext.
  intros s. apply truthy_strip.
Qed.

Lemma split_sentences_no_mark (text : str) :
  forallb (fun c => negb (terminal c)) text = true ->
  _split_sentences text = if blank text then [] else [strip text].
Proof.
  intros H. rewrite split_sentences_pieces. unfold re_split.
  rewrite re_split_single; auto using no_mark_boundary_free.
  cbn [List.filter]. now destruct (blank text).
Qed.

Lemma split_sentences_blank (text : str) :
  blank text = true -> _split_sentences text = [].
Proof.
  intros H. rewrite split_sentences_no_mark by now apply blank_no_mark.
  now rewrite H.
Qed.

Lemma split_sentences_trimmed (text s : str) :
  In s (_split_sentences text) -> s <> [] /\ strip s = s.
Proof.
  unfold _split_sentences. rewrite in_map_iff.
  intros (p & <- & Hp). apply filter_In in Hp as [_ Hp].
  split; [|apply strip_idempotent].
  intros E. rewrite E in Hp. discriminate.
Qed.

(** C6. [_split_sentences] cuts the text exactly at the runs of whitespace
    that directly follow a terminal mark ([.], [!] or [?]): the fragments
    between those boundaries are determined by the text, each is trimmed
    and the empty ones are dropped.  A text without any terminal mark that
    is not blank yields the single sentence [strip text]; an empty or
    whitespace-only text yields no sentence. *)
Theorem split_sentences_at_boundaries (text : str) :
  (exists pieces,
      Sentences text pieces
      /\ (forall other, Sentences text other -> other = pieces)
      /\ _split_sentences text
         = List.map strip (List.filter (fun s => negb (blank s)) pieces))
  /\ (forall s, In s (_split_sentences text) -> s <> [] /\ strip s = s)
  /\ (forallb (fun c => negb (terminal c)) text = true ->
      blank text = false -> _split_sentences text = [strip text])
  /\ (blank text = true -> _split_sentences text = []).
Proof.
  repeat split.
  - exists (re_split text). repeat split.
    + apply sentences_complete.
    + intros other H. symmetry. now apply sentences_sound.
    + apply split_sentences_pieces.
  - now apply split_sentences_trimmed in H.
  - now apply split_sentences_trimmed in H.
  - intros Hm Hb. rewrite split_sentences_no_mark by exact Hm.
    now rewrite Hb.
  - apply split_sentences_blank.
Qed.

Lemma split_sentences_at_boundaries_witness :
  _split_sentences (lit "  just one line ") = [lit "just one line"]
  /\ _split_sentences (lit "   ") = [].
Proof.
  destruct (split_sentences_at_boundaries (lit "  just one line "))
    as (_ & _ & H & _).
  destruct (split_sentences_at_boundaries (lit "   ")) as (_ & _ & _ & H').
  split.
  - rewrite H; reflexivity.
  - apply H'; reflexivity.
Defined.

Example split_sentences_scenario :
  _split_sentences
    (lit "This is obviously written by a human with quirky style!! I think so, yes.")
  = [lit "This is obviously written by a human with quirky style!!";
     lit "I think so, yes."].
Proof. reflexivity. Qed.

Example split_sentences_runs :
  _split_sentences (lit " One.   Two?  x.y !z ") =
  [lit "One."; lit "Two?"; lit "x.y !z"].
Proof. reflexivity. Qed.

(** ** Paragraph splitting *)

Lemma has_blank_line_cons (c : char) (s : str) :
  has_blank_line (c :: s) = false ->
  (N.eqb c LF && match s with d :: _ => N.eqb d LF | [] => false end) = false
  /\ has_blank_line s = false.
Proof. cbn [has_blank_line]. apply orb_false_iff. Qed.

Lemma split_blank_line_step (c d : char) (r : str) :
  split_blank_line (c :: d :: r)
  = if N.eqb c LF && N.eqb d LF then [] :: split_blank_line r
    else cons_hd c (split_blank_line (d :: r)).
Proof. reflexivity. Qed.

Lemma split_blank_line_clean (p : str) :
  has_blank_line p = false -> split_blank_line p = [p].
Proof.
  induction p as [|c r IH]; [reflexivity|].
  intros H. apply has_blank_line_cons in H as [Hc Hr].
  destruct r as [|d r']; [reflexivity|].
  rewrite split_blank_line_step, Hc, (IH Hr). reflexivity.
Qed.

Lemma split_blank_line_cut (p rest : str) :
  has_blank_line (p ++ [LF]) = false ->
  split_blank_line (p ++ LF :: LF :: rest) = p :: split_blank_line rest.
Proof.
  induction p as [|c r IH]; [reflexivity|].
  cbn [app]. intros H. apply has_blank_line_cons in H as [Hc Hr].
  destruct r as [|d r'].
  - cbn [app] in Hc |- *. rewrite split_blank_line_step, Hc.
    reflexivity.
  - cbn [app] in Hc |- *. rewrite split_blank_line_step, Hc.
    cbn [app] in IH. rewrite (IH Hr). reflexivity.
Qed.

Lemma first_blank_line (s : str) :
  has_blank_line s = true ->
  exists p rest, s = p ++ LF :: LF :: rest
                 /\ has_blank_line (p ++ [LF]) = false.
Proof.
  induction s as [|c r IH]; [discriminate|].
  cbn [has_blank_line].
  destruct (N.eqb c LF && match r with d :: _ => N.eqb d LF | [] => false end)
    eqn:Hc.
  - intros _. apply andb_true_iff in Hc as [Hc Hd].
    destruct r as [|d r']; [discriminate|].
    apply N.eqb_eq in Hc, Hd. subst. now exists [], r'.
  - cbn [orb]. intros H.
    destruct (IH H) as (p & rest & Hr & Hp).
    exists (c :: p), rest. split; [cbn [app]; now rewrite Hr|].
    cbn [app has_blank_line]. rewrite Hp, orb_false_r.
    rewrite Hr in Hc. now destruct p.
Qed.

Lemma paragraphs_sound (text : str) (pieces : list str) :
  Paragraphs text pieces -> split_blank_line text = pieces.
Proof.
  induction 1 as [p Hp | p rest pieces Hp _ IH].
  - now apply split_blank_line_clean.
  - rewrite split_blank_line_cut by exact Hp. now rewrite IH.
Qed.

Lemma paragraphs_complete (text : str) :
  Paragraphs text (split_blank_line text).
Proof.
  assert (H : forall n s, (List.length s < n)%nat ->
                          Paragraphs s (split_blank_line s)).
  { induction n as [|n IH]; intros s Hn; [lia|].
    destruct (has_blank_line s) eqn:Hb.
    - destruct (first_blank_line s Hb) as (p & rest & -> & Hp).
      rewrite split_blank_line_cut by exact Hp.
      apply paragraphs_cut; auto. apply IH.
      rewrite length_app in Hn. cbn [List.length] in Hn. lia.
    - rewrite split_blank_line_clean by exact Hb.
      now apply paragraphs_last. }
  apply (H (S (List.length text))). lia.
Qed.

Lemma paragraphs_join (text : str) (pieces : list str) :
  Paragraphs text pieces -> join_blank_line pieces = text.
Proof.
  induction 1 as [p Hp | p rest pieces Hp H IH]; [reflexivity|].
  cbn [join_blank_line]. rewrite IH. now destruct H.
Qed.

Lemma has_blank_line_suffix (a s : str) :
  has_blank_line (a ++ s) = false -> has_blank_line s = false.
Proof.
  induction a as [|c a IH]; [auto|].
  cbn [app]. intros H. apply has_blank_line_cons in H as [_ H]. auto.
Qed.

Lemma has_blank_line_prefix (m b : str) :
  has_blank_line (m ++ b) = false -> has_blank_line m = false.
Proof.
  induction m as [|c m IH]; [reflexivity|].
  cbn [app]. intros H. apply has_blank_line_cons in H as [Hc H].
  cbn [has_blank_line]. rewrite (IH H), orb_false_r.
  destruct m; [apply andb_false_r|exact Hc].
Qed.

Lemma has_blank_line_strip (s : str) :
  has_blank_line s = false -> has_blank_line (strip s) = false.
Proof.
  destruct (strip_decompose s) as (a & b & Hs & _).
  intros H. rewrite Hs in H.
  apply has_blank_line_suffix, has_blank_line_prefix in H. exact H.
Qed.

Lemma paragraphs_pieces (text : str) :
  _paragraphs_from_text text
  = List.map strip
      (List.filter (fun p => negb (blank p)) (split_blank_line text)).
Proof.
  unfold _paragraphs_from_text. f_equal. apply filter_ext.
  intros s. apply truthy_strip.
Qed.

Lemma paragraphs_trimmed (text p : str) :
  In p (_paragraphs_from_text text) ->
  p <> [] /\ strip p = p /\ has_blank_line p = false.
Proof.
  unfold _paragraphs_from_text. rewrite in_map_iff.
  intros (q & <- & Hq). apply filter_In in Hq as [Hin Hq].
  repeat split.
  - intros E. rewrite E in Hq. discriminate.
  - apply strip_idempotent.
  - apply has_blank_line_strip.
    pose proof (paragraphs_complete text) as H.
    remember (split_blank_line text) as ps eqn:E. clear E.
    induction H as [p0 Hp | p0 rest pieces Hp _ IH].
    + destruct Hin as [<- | []]. exact Hp.
    + destruct Hin as [<- | Hin]; [|auto].
      now apply has_blank_line_prefix in Hp.
Qed.

Lemma ends_with_line_break (p : str) :
  has_blank_line p = false -> has_blank_line (p ++ [LF]) = true ->
  exists q, p = q ++ [LF].
Proof.
  induction p as [|c r IH]; [discriminate|].
  intros Hp H. apply has_blank_line_cons in Hp as [Hc Hr].
  cbn [app has_blank_line] in H. apply orb_true_iff in H as [H | H].
  - destruct r as [|d r'].
    + apply andb_true_iff in H as [H _]. apply N.eqb_eq in H. subst.
      now exists [].
    + cbn [app] in H. congruence.
  - destruct (IH Hr H) as (q & ->). now exists (c :: q).
Qed.

Lemma paragraphs_of_two (p1 p2 : str) :
  blank p1 = false -> blank p2 = false ->
  has_blank_line p1 = false -> has_blank_line p2 = false ->
  _paragraphs_from_text (p1 ++ LF :: LF :: p2) = [strip p1; strip p2].
Proof.
  intros B1 B2 H1 H2. rewrite paragraphs_pieces.
  destruct (has_blank_line (p1 ++ [LF])) eqn:E.
  - destruct (ends_with_line_break p1 H1 E) as (q & ->).
    assert (Bq : blank q = false).
    { rewrite blank_app in B1. cbn in B1. now rewrite andb_true_r in B1. }
    assert (Sq : strip (q ++ [LF]) = strip q)
      by (apply strip_snoc_space; reflexivity).
    rewrite <- app_assoc. cbn [app].
    rewrite split_blank_line_cut by exact H1.
    destruct p2 as [|d p2']; [discriminate|].
    destruct (N.eqb d LF) eqn:Hd.
    + apply N.eqb_eq in Hd. subst d.
      apply has_blank_line_cons in H2 as [_ H2].
      change (LF :: LF :: p2') with ([] ++ LF :: LF :: p2').
      rewrite split_blank_line_cut by reflexivity.
      rewrite split_blank_line_clean by exact H2.
      assert (B2' : blank p2' = false) by exact B2.
      cbn [List.filter blank forallb negb]. rewrite Bq. fold (blank p2').
      rewrite B2'. cbn [negb List.map]. rewrite Sq.
      now rewrite (strip_cons_space LF p2') by reflexivity.
    + rewrite split_blank_line_clean.
      * assert (B2' : blank (LF :: d :: p2') = false) by exact B2.
        cbn [List.filter]. rewrite Bq, B2'. cbn [negb List.map].
        rewrite Sq.
        now rewrite (strip_cons_space LF (d :: p2')) by reflexivity.
      * cbn [has_blank_line] in H2 |- *. rewrite Hd in H2 |- *.
        rewrite andb_false_r. exact H2.
  - rewrite split_blank_line_cut by exact E.
    rewrite split_blank_line_clean by exact H2.
    cbn [List.filter]. rewrite B1, B2. reflexivity.
Qed.

(** ** The monad *)

Lemma bind_ok {A B} (m : M A) (k : A -> M B) (w w1 : World) (a : A) :
  m w = (Ok a, w1) -> bind m k w = k a w1.
Proof. unfold bind. now intros ->. Qed.

Lemma bind_raise {A B} (m : M A) (k : A -> M B) (w w1 : World) (e : PyExn) :
  m w = (Raise e, w1) -> bind m k w = (Raise e, w1).
Proof. unfold bind. now intros ->. Qed.

Lemma bind_ok_inv {A B} (m : M A) (k : A -> M B) (w w' : World) (b : B) :
  bind m k w = (Ok b, w') ->
  exists a w1, m w = (Ok a, w1) /\ k a w1 = (Ok b, w').
Proof.
  unfold bind. destruct (m w) as [[a | e] w1]; [eauto | discriminate].
Qed.

(** ** Loading the pipeline *)

Section Loading.

Variable pipeline : Outcome Pipe.

Lemma load_run (w : World) :
  _load_detector_pipe pipeline w = (current_pipe pipeline w, loaded pipeline w).
Proof.
  unfold loaded, current_pipe, _load_detector_pipe.
  destruct (cache w); [reflexivity|]. cbn. now destruct pipeline.
Qed.

Lemma loaded_calls (w : World) : calls (loaded pipeline w) = calls w.
Proof.
  unfold loaded, _load_detector_pipe.
  destruct (cache w); [reflexivity|]. cbn. now destruct pipeline.
Qed.

Lemma loaded_current (w : World) (pipe : Pipe) :
  current_pipe pipeline w = Ok pipe ->
  current_pipe pipeline (loaded pipeline w) = Ok pipe.
Proof.
  unfold loaded, current_pipe, _load_detector_pipe.
  destruct (cache w) eqn:E; cbn.
  - rewrite ?E. auto.
  - now intros ->.
Qed.

Lemma loaded_logged (c : PipeCall) (w : World) (pipe : Pipe) :
  current_pipe pipeline w = Ok pipe ->
  loaded pipeline (logged c (loaded pipeline w))
  = logged c (loaded pipeline w)
  /\ current_pipe pipeline (logged c (loaded pipeline w)) = Ok pipe.
Proof.
  unfold loaded, logged, current_pipe, _load_detector_pipe.
  destruct (cache w) eqn:E; cbn.
  - rewrite ?E. cbn. rewrite ?E. auto.
  - now intros ->.
Qed.

End Loading.

(** ** The comprehension over the batch results *)

Lemma skipn_nth_error {A} (xs : list A) (i : nat) (x : A) :
  nth_error xs i = Some x -> skipn i xs = x :: skipn (S i) xs.
Proof.
  revert i. induction xs as [|y xs IH]; intros [|i]; cbn; try discriminate.
  - now intros [= ->].
  - intros H. exact (IH i H).
Qed.

Lemma sentence_entries_inv (ss : list str) :
  forall rs idx entries,
    sentence_entries ss idx rs = Ok entries ->
    Forall2 (fun e p => e = entry_of (sent_sentence e) p) entries rs
    /\ List.map sent_sentence entries = firstn (List.length rs) (skipn idx ss).
Proof.
  induction rs as [|p rs IH]; intros idx entries; cbn [sentence_entries].
  - intros [= <-]. split; [constructor | reflexivity].
  - unfold getitem. destruct (nth_error ss idx) as [s|] eqn:Hs; [|discriminate].
    destruct (sentence_entries ss (S idx) rs) as [es|] eqn:Hes; [|discriminate].
    intros [= <-]. destruct (IH _ _ Hes) as [HF Hm]. split.
    + constructor; [reflexivity | exact HF].
    + rewrite (skipn_nth_error ss idx s Hs). cbn. now rewrite Hm.
Qed.

(** No more predictions than sentences: every index is in range. *)
Lemma sentence_entries_total (ss : list str) :
  forall rs idx,
    (idx + List.length rs <= List.length ss)%nat ->
    exists entries, sentence_entries ss idx rs = Ok entries.
Proof.
  induction rs as [|p rs IH]; intros idx Hlen; cbn [sentence_entries].
  - eauto.
  - cbn [List.length] in Hlen. unfold getitem.
    destruct (nth_error ss idx) as [s|] eqn:Hs.
    + assert (Hlen' : (S idx + List.length rs <= List.length ss)%nat) by lia.
      destruct (IH (S idx) Hlen') as [es ->]. eauto.
    + apply nth_error_None in Hs. lia.
Qed.

(** More predictions than sentences: [sentences[idx]] runs past the end. *)
Lemma sentence_entries_overrun (ss : list str) :
  forall rs idx,
    rs <> [] ->
    (List.length ss < idx + List.length rs)%nat ->
    sentence_entries ss idx rs = Raise IndexError.
Proof.
  induction rs as [|p rs IH]; intros idx Hne Hlen; [congruence|].
  cbn [sentence_entries]. cbn [List.length] in Hlen. unfold getitem.
  destruct (nth_error ss idx) as [s|] eqn:Hs; [|reflexivity].
  assert (Hidx : (idx < List.length ss)%nat).
  { apply nth_error_Some. congruence. }
  rewrite IH; [reflexivity | | lia].
  destruct rs; [cbn in Hlen; lia | congruence].
Qed.

(** ** Running the analysis *)

Section Running.

Variable pipeline : Outcome Pipe.

Lemma analyze_sentences_run (text : str) (w : World) (pipe : Pipe) :
  current_pipe pipeline w = Ok pipe ->
  analyze_sentences pipeline text w
  = match _split_sentences text with
    | [] => (Ok [], w)
    | s :: ss =>
        (match pipe (batch_call (s :: ss)) with
         | Ok rs => sentence_entries (s :: ss) 0 rs
         | Raise e => Raise e
         end,
         logged (batch_call (s :: ss)) (loaded pipeline w))
    end.
Proof.
  intros Hp. unfold analyze_sentences.
  destruct (_split_sentences text) as [|s ss]; [reflexivity|].
  unfold bind. rewrite load_run, Hp. unfold call_pipe, lift.
  fold (batch_call (s :: ss)).
  fold (logged (batch_call (s :: ss)) (loaded pipeline w)).
  now destruct (pipe (batch_call (s :: ss))).
Qed.

Lemma analyze_text_load_fails (text : str) (w : World) (e : PyExn) :
  current_pipe pipeline w = Raise e ->
  analyze_text pipeline text w = (Raise e, loaded pipeline w).
Proof.
  intros Hp. unfold analyze_text.
  apply bind_raise. now rewrite load_run, Hp.
Qed.

Lemma analyze_text_run (text : str) (w : World) (pipe : Pipe) :
  current_pipe pipeline w = Ok pipe ->
  analyze_text pipeline text w
  = let w2 := logged (doc_call text) (loaded pipeline w) in
    match pipe (doc_call text) with
    | Raise e => (Raise e, w2)
    | Ok [] => (Raise IndexError, w2)
    | Ok (first :: _) =>
        match analyze_sentences pipeline text w2 with
        | (Ok entries, w3) =>
            (Ok (mkAnalysis (pred_label first) (pred_score first * 100)
                   (100 - pred_score first * 100) text entries
                   (_paragraphs_from_text text)), w3)
        | (Raise e, w3) => (Raise e, w3)
        end
    end.
Proof.
  intros Hp. unfold analyze_text, bind.
  rewrite load_run, Hp. unfold call_pipe, lift, ret.
  fold (doc_call text). fold (logged (doc_call text) (loaded pipeline w)).
  cbn zeta.
  destruct (pipe (doc_call text)) as [[|first rest]|e]; reflexivity.
Qed.

End Running.

Section Results.

Variable pipeline : Outcome Pipe.

(** What a successful analysis tells about the run that produced it. *)
Lemma analyze_text_ok_inv (t : str) (w w' : World) (r : AnalysisResult) :
  analyze_text pipeline t w = (Ok r, w') ->
  exists pipe first rest,
    current_pipe pipeline w = Ok pipe
    /\ pipe (doc_call t) = Ok (first :: rest)
    /\ label r = pred_label first
    /\ score r = pred_score first * 100
    /\ originality r = 100 - score r
    /\ text r = t
    /\ paragraphs r = _paragraphs_from_text t
    /\ ((_split_sentences t = [] /\ sentences r = []
         /\ w' = logged (doc_call t) (loaded pipeline w))
        \/ (exists rs,
               _split_sentences t <> []
               /\ pipe (batch_call (_split_sentences t)) = Ok rs
               /\ sentence_entries (_split_sentences t) 0 rs
                  = Ok (sentences r)
               /\ w' = logged (batch_call (_split_sentences t))
                         (logged (doc_call t) (loaded pipeline w)))).
Proof.
  destruct (current_pipe pipeline w) as [pipe|e] eqn:Hp.
  2:{ rewrite (analyze_text_load_fails _ _ _ _ Hp). discriminate. }
  rewrite (analyze_text_run _ _ _ _ Hp). cbn zeta.
  destruct (pipe (doc_call t)) as [[|first rest]|e] eqn:Hd; try discriminate.
  destruct (loaded_logged pipeline (doc_call t) w pipe Hp) as [Hl Hp2].
  rewrite (analyze_sentences_run _ _ _ _ Hp2), Hl.
  intros H. exists pipe, first, rest.
  destruct (_split_sentences t) as [|s ss] eqn:Hs.
  - injection H as <- <-. cbn. repeat split; auto.
  - destruct (pipe (batch_call (s :: ss))) as [rs|e] eqn:Hb; [|discriminate].
    destruct (sentence_entries (s :: ss) 0 rs) as [entries|e] eqn:He;
      [|discriminate].
    injection H as <- <-. cbn. repeat split; auto.
    right. exists rs. repeat split; auto. discriminate.
Qed.

(** A run whose calls all succeed yields a result. *)
Lemma analyze_text_ok (t : str) (w : World) (pipe : Pipe)
    (first : Prediction) (rest rs : list Prediction) :
  current_pipe pipeline w = Ok pipe ->
  pipe (doc_call t) = Ok (first :: rest) ->
  _split_sentences t = []
  \/ (pipe (batch_call (_split_sentences t)) = Ok rs
      /\ (List.length rs <= List.length (_split_sentences t))%nat) ->
  exists r w', analyze_text pipeline t w = (Ok r, w').
Proof.
  intros Hp Hd Hb. rewrite (analyze_text_run _ _ _ _ Hp), Hd. cbn zeta.
  destruct (loaded_logged pipeline (doc_call t) w pipe Hp) as [Hl Hp2].
  rewrite (analyze_sentences_run _ _ _ _ Hp2).
  destruct (_split_sentences t) as [|s ss] eqn:Hs; [eauto|].
  destruct Hb as [Hb | [Hb Hlen]]; [discriminate|].
  rewrite Hb.
  destruct (sentence_entries_total (s :: ss) rs 0) as [entries ->]; eauto.
Qed.

(** C4. Whenever [analyze_text] returns a result (in particular for every
    text whose trimmed form is not empty), its [originality] is
    [100 - score], and every entry of its [sentences] satisfies the same
    identity. *)
Theorem originality_is_complement (t : str) (w w' : World)
    (r : AnalysisResult) :
  analyze_text pipeline t w = (Ok r, w') ->
  originality r = 100 - score r
  /\ Forall (fun s => sent_originality s = 100 - sent_score s) (sentences r).
Proof.
  intros H. apply analyze_text_ok_inv in H
    as (pipe & first & rest & _ & _ & _ & Hs & Ho & _ & _ & Hsent).
  split; [exact Ho|].
  destruct Hsent as [(_ & -> & _) | (rs & _ & _ & He & _)]; [constructor|].
  apply sentence_entries_inv in He as [HF _].
  induction HF as [|e p es ps Hep _ IH]; constructor; auto.
  rewrite Hep. reflexivity.
Qed.

(** C2 (amended). The label of a result is the label string the pipeline
    returned, unchanged, and the score is the pipeline's score times 100,
    which lies in [0,100] when the pipeline's score lies in [0,1]; so for
    the document and for every sentence of the batch. *)
Theorem labels_and_scores_from_pipeline (t : str) (w w' : World)
    (r : AnalysisResult) :
  analyze_text pipeline t w = (Ok r, w') ->
  exists pipe first rest rs,
    current_pipe pipeline w = Ok pipe
    /\ pipe (doc_call t) = Ok (first :: rest)
    /\ label r = pred_label first
    /\ score r = pred_score first * 100
    /\ (0 <= pred_score first <= 1 -> 0 <= score r <= 100)
    /\ ((_split_sentences t = [] /\ rs = [])
        \/ pipe (batch_call (_split_sentences t)) = Ok rs)
    /\ Forall2
         (fun e p =>
            sent_label e = pred_label p
            /\ sent_score e = pred_score p * 100
            /\ (0 <= pred_score p <= 1 -> 0 <= sent_score e <= 100))
         (sentences r) rs.
Proof.
  intros H. apply analyze_text_ok_inv in H
    as (pipe & first & rest & Hp & Hd & Hl & Hs & _ & _ & _ & Hsent).
  assert (Hrange : forall x : Q, 0 <= x <= 1 -> 0 <= x * 100 <= 100)
    by (intros x Hx; lra).
  destruct Hsent as [(Hss & -> & _) | (rs & _ & Hb & He & _)].
  - exists pipe, first, rest, []. rewrite Hs.
    repeat split; auto; now apply Hrange.
  - exists pipe, first, rest, rs. rewrite Hs.
    repeat split; auto; try (now apply Hrange).
    apply sentence_entries_inv in He as [HF _].
    eapply Forall2_impl; [|exact HF].
    intros e p Hep. rewrite Hep. cbn. repeat split; auto; now apply Hrange.
Qed.

(** C5. The [sentences] of an analysis are the fragments of
    [_split_sentences], one entry each and in their order, provided the
    batch call returns one prediction per input; when there is no
    fragment, the list is empty, the pipeline is not touched and nothing
    is raised. *)
Theorem sentences_follow_fragments (t : str) (w : World) :
  (_split_sentences t = [] -> analyze_sentences pipeline t w = (Ok [], w))
  /\ (forall pipe first rest rs,
        current_pipe pipeline w = Ok pipe ->
        pipe (doc_call t) = Ok (first :: rest) ->
        _split_sentences t = []
        \/ (pipe (batch_call (_split_sentences t)) = Ok rs
            /\ List.length rs = List.length (_split_sentences t)) ->
        exists r w',
          analyze_text pipeline t w = (Ok r, w')
          /\ List.map sent_sentence (sentences r) = _split_sentences t
          /\ List.length (sentences r) = List.length (_split_sentences t)
          /\ (_split_sentences t = [] \/
              Forall2 (fun e p => e = entry_of (sent_sentence e) p)
                (sentences r) rs)).
Proof.
  split.
  - intros Hs. unfold analyze_sentences. now rewrite Hs.
  - intros pipe first rest rs Hp Hd Hb.
    destruct (analyze_text_ok t w pipe first rest rs Hp Hd) as (r & w' & Hr).
    { destruct Hb as [Hb | [Hb Hlen]]; [now left | right; split; auto; lia]. }
    exists r, w'. split; [exact Hr|].
    apply analyze_text_ok_inv in Hr
      as (pipe' & _ & _ & Hp' & _ & _ & _ & _ & _ & _ & Hsent).
    assert (pipe' = pipe) by congruence. subst pipe'.
    destruct Hsent as [(Hss & -> & _) | (rs' & Hne & Hb' & He & _)].
    + rewrite Hss. cbn. auto.
    + destruct Hb as [Hb | [Hb Hlen]]; [contradiction|].
      assert (rs' = rs) by congruence. subst rs'.
      apply sentence_entries_inv in He as [HF Hm].
      rewrite Hlen in Hm. cbn [skipn] in Hm. rewrite firstn_all in Hm.
      split; [exact Hm|]. split; [|now right].
      rewrite <- Hm. now rewrite length_map.
Qed.


End Results.

Lemma originality_is_complement_witness :
  exists r w',
    analyze_text (Ok human_stub) quirky fresh = (Ok r, w')
    /\ originality r = 100 - score r
    /\ Forall (fun s => sent_originality s = 100 - sent_score s) (sentences r).
Proof.
  destruct (analyze_text (Ok human_stub) quirky fresh) as [[r|e] w'] eqn:E.
  - exists r, w'. split; [reflexivity|].
    exact (originality_is_complement (Ok human_stub) quirky fresh w' r E).
  - vm_compute in E. discriminate E.
Defined.

(** The scenario of the specification: the numbers of the result. *)
Example quirky_scenario :
  exists r w',
    analyze_text (Ok human_stub) quirky fresh = (Ok r, w')
    /\ label r = lit "Human" /\ score r == 12 /\ originality r == 88
    /\ List.map sent_originality (sentences r) = [100 - 0.10 * 100; 100 - 0.15 * 100]
    /\ List.map (fun q => Qred (sent_originality q)) (sentences r) = [90; 85]
    /\ calls w' = [doc_call quirky; batch_call (_split_sentences quirky)].
Proof.
  destruct (analyze_text (Ok human_stub) quirky fresh) as [[r|e] w'] eqn:E;
    vm_compute in E; [|discriminate E].
  injection E as <- <-. eexists _, _. split; [reflexivity|].
  repeat split; reflexivity.
Qed.

Lemma labels_are_not_mapped : ~ labels_are_enum_values.
Proof.
  intros H.
  destruct (analyze_text (Ok fake_stub) one_sentence fresh)
    as [[r|e] w'] eqn:E.
  - specialize (H _ _ _ _ _ E). vm_compute in E.
    injection E as <- _. vm_compute in H. destruct H as [H | H]; discriminate H.
  - vm_compute in E. discriminate E.
Qed.

Lemma labels_and_scores_from_pipeline_witness :
  exists r w',
    analyze_text (Ok fake_stub) one_sentence fresh = (Ok r, w')
    /\ label r = lit "Fake" /\ score r = 0.995 * 100.
Proof.
  destruct (analyze_text (Ok fake_stub) one_sentence fresh)
    as [[r|e] w'] eqn:E.
  - exists r, w'. split; [reflexivity|].
    destruct (labels_and_scores_from_pipeline
                (Ok fake_stub) one_sentence fresh w' r E)
      as (pipe & first & rest & rs & Hp & Hd & Hl & Hs & _).
    injection Hp as <-. injection Hd as <- _. auto.
  - vm_compute in E. discriminate E.
Defined.

Lemma sentences_follow_fragments_witness :
  exists r w',
    analyze_text (Ok human_stub) quirky fresh = (Ok r, w')
    /\ List.map sent_sentence (sentences r)
       = [lit "This is obviously written by a human with quirky style!!";
          lit "I think so, yes."].
Proof.
  destruct (sentences_follow_fragments (Ok human_stub) quirky fresh)
    as [_ H].
  destruct (H human_stub (mkPrediction (lit "Human") 0.12) []
              [mkPrediction (lit "Human") 0.10; mkPrediction (lit "Human") 0.15])
    as (r & w' & Hr & Hm & _).
  - reflexivity.
  - reflexivity.
  - right. split; reflexivity.
  - exists r, w'. split; [exact Hr | exact Hm].
Defined.



(** What the caller gets is the exception of the library, whichever it is;
    and an [IndexError] raised inside the pipeline cannot be told from the
    one the code raises itself on an empty answer. *)
Example failures_as_the_caller_sees_them :
  fst (analyze_text (Raise (LibraryError (lit "model not found")))
         one_sentence fresh)
  = Raise (LibraryError (lit "model not found"))
  /\ fst (analyze_text (Raise (LibraryError (lit "out of memory")))
            one_sentence fresh)
     = Raise (LibraryError (lit "out of memory"))
  /\ fst (analyze_text (Ok (failing_pipe IndexError)) one_sentence fresh)
     = fst (analyze_text (Ok (fixed_pipe 0)) one_sentence fresh).
Proof. repeat split. Qed.

(** ** Blank input *)

Lemma paragraphs_blank (t : str) :
  blank t = true -> _paragraphs_from_text t = [].
Proof.
  intros Hb. rewrite paragraphs_pieces.
  pose proof (paragraphs_complete t) as H.
  remember (split_blank_line t) as ps eqn:E. clear E.
  induction H as [p Hp | p rest pieces Hp _ IH]; cbn [List.filter].
  - now rewrite Hb.
  - rewrite blank_app in Hb. apply andb_true_iff in Hb as [Hb1 Hb2].
    rewrite Hb1. cbn [negb]. apply IH.
    unfold blank in Hb2 |- *. cbn [forallb] in Hb2.
    now rewrite !andb_true_iff in Hb2.
Qed.

(** C1 (amended). [analyze_text] makes no emptiness check: for a text whose
    trimmed form is empty it still makes the document-level call on that
    text, and only that call (there is no sentence to batch); with a
    prediction returned, the result has no sentences and no paragraphs.
    Blank input is turned down by the views before the analysis is
    reached, with no pipeline call: [report] answers 400 and the index
    view, without an uploaded file, reports an error. *)
Theorem blank_input_handling (wrap : str -> nat -> list str)
    (pipeline : Outcome Pipe) (lower : str -> str) (Bytes : Type)
    (open_document : Bytes -> Outcome Document) (t : str) (w : World) :
  blank t = true ->
  (forall pipe,
      current_pipe pipeline w = Ok pipe ->
      exists o w',
        analyze_text pipeline t w = (o, w')
        /\ calls w' = calls w ++ [doc_call t]
        /\ (forall first rest,
              pipe (doc_call t) = Ok (first :: rest) ->
              o = Ok (mkAnalysis (pred_label first) (pred_score first * 100)
                        (100 - pred_score first * 100) t [] [])))
  /\ report wrap pipeline (Some t) w
     = (Ok (TextResponse (lit "Text is required for report generation") 400),
        w)
  /\ index pipeline lower open_document (mkRequest POST None (Some t)) w
     = (Ok (mkPage (Some (lit "Provide text or upload a document.")) None []),
        w).
Proof.
  intros Hb. repeat split.
  - intros pipe Hp. rewrite (analyze_text_run _ _ _ _ Hp). cbn zeta.
    destruct (loaded_logged pipeline (doc_call t) w pipe Hp) as [_ Hp2].
    rewrite (analyze_sentences_run _ _ _ _ Hp2).
    rewrite (split_sentences_blank t Hb), (paragraphs_blank t Hb).
    assert (Hc : calls (logged (doc_call t) (loaded pipeline w))
                 = calls w ++ [doc_call t])
      by (cbn; now rewrite loaded_calls).
    destruct (pipe (doc_call t)) as [[|first rest]|e];
      eexists _, _; (split; [reflexivity|]); (split; [exact Hc|]);
      intros first' rest' [=]; subst; reflexivity.
  - unfold report. cbv beta iota. now rewrite (strip_blank t Hb).
  - unfold index. cbv beta iota delta [method files_document form_text].
    now rewrite (strip_blank t Hb).
Qed.

Lemma blank_input_handling_witness :
  blank (lit "   ") = true
  /\ report (fun s _ => [s]) (Ok fake_stub) (Some (lit "   ")) fresh
     = (Ok (TextResponse (lit "Text is required for report generation") 400),
        fresh).
Proof.
  split; [reflexivity|].
  apply (blank_input_handling (fun s _ => [s]) (Ok fake_stub) (fun s => s)
           unit (fun _ => Ok (mkDocument [])) (lit "   ") fresh).
  reflexivity.
Defined.

Lemma blank_input_reaches_classifier : ~ blank_input_is_rejected.
Proof.
  intros H.
  destruct (H (Ok fake_stub) (lit "   ") fresh eq_refl) as (e & w' & Hrun & _).
  vm_compute in Hrun. discriminate Hrun.
Qed.

(** What the code does on blank input: one call, and a result. *)
Example blank_input_run :
  exists r w',
    analyze_text (Ok fake_stub) (lit "   ") fresh = (Ok r, w')
    /\ calls w' = [doc_call (lit "   ")]
    /\ label r = lit "Fake" /\ sentences r = [] /\ paragraphs r = [].
Proof.
  destruct (analyze_text (Ok fake_stub) (lit "   ") fresh)
    as [[r|e] w'] eqn:E; vm_compute in E; [|discriminate E].
  injection E as <- <-. eexists _, _. split; [reflexivity|].
  repeat split; reflexivity.
Qed.

(** The index view does not look at the text extracted from an uploaded
    document: a document without text reaches the classifier. *)
Example upload_of_blank_document :
  exists page w',
    index (Ok fake_stub) (fun s => s)
      (fun _ : unit => Ok (mkDocument [mkParagraph (lit "  ")]))
      (mkRequest POST (Some (mkUpload (lit "notes.docx") tt)) None) fresh
    = (Ok page, w')
    /\ page_submitted_text page = []
    /\ calls w' = [doc_call []]
    /\ page_error page = None.
Proof.
  match goal with
  | |- exists page w', ?run = _ /\ _ =>
      destruct run as [[page|e] w'] eqn:E; vm_compute in E;
      [|discriminate E]
  end.
  injection E as <- <-. eexists _, _. split; [reflexivity|].
  repeat split; reflexivity.
Qed.

(** ** The console summary *)

Lemma Qgtb_lt (a b : Q) : Qgtb a b = true <-> b < a.
Proof.
  unfold Qgtb. rewrite negb_true_iff, <- not_true_iff_false, Qle_bool_iff.
  split; [apply Qnot_le_lt | apply Qlt_not_le].
Qed.

Lemma Qgtb_not_lt (a b : Q) : Qgtb a b = false <-> ~ b < a.
Proof. rewrite <- Qgtb_lt. symmetry. apply not_true_iff_false. Qed.

Lemma digit_is_digit (d : N) : (d < 10)%N -> is_digit (digit d) = true.
Proof.
  intros H. unfold is_digit, digit.
  apply andb_true_iff. split; apply N.leb_le; lia.
Qed.

Lemma string_of_uint_digits (d : Decimal.uint) :
  forallb is_digit (lit (NilEmpty.string_of_uint d)) = true.
Proof. induction d; cbn; auto. Qed.

Lemma decimal_digits (n : N) :
  decimal n <> [] /\ forallb is_digit (decimal n) = true.
Proof.
  unfold decimal, NilZero.string_of_uint.
  destruct (N.to_uint n) eqn:E;
    try (split; [discriminate | exact (string_of_uint_digits _)]).
  split; [discriminate | reflexivity].
Qed.

Lemma format_2f_two_decimals (q : Q) : two_decimals (format_2f q).
Proof.
  unfold format_2f. set (h := round_hundredths q).
  exists (if Qltb q 0 then lit "-" else []), (decimal (h / 100)),
    (digit ((h mod 100) / 10)), (digit (h mod 10)).
  destruct (decimal_digits (h / 100)) as [Hne Hd].
  repeat split; auto.
  - destruct (Qltb q 0); auto.
  - apply digit_is_digit. apply N.Div0.div_lt_upper_bound.
    change (10 * 10)%N with 100%N. now apply N.mod_lt.
  - apply digit_is_digit. now apply N.mod_lt.
Qed.

(** The number of hundredths printed is a nearest one. *)
Lemma round_hundredths_nearest (q : Q) :
  (2 * Z.abs (Z.abs (Qnum q) * 100
              - Z.pos (Qden q) * Z.of_N (round_hundredths q))
   <= Z.pos (Qden q))%Z.
Proof.
  unfold round_hundredths.
  set (a := (Z.abs_N (Qnum q) * 100)%N). set (b := N.pos (Qden q)).
  assert (Ha : (Z.abs (Qnum q) * 100 = Z.of_N a)%Z).
  { unfold a. rewrite N2Z.inj_mul, N2Z.inj_abs_N. reflexivity. }
  assert (Hb : Z.pos (Qden q) = Z.of_N b) by reflexivity.
  rewrite Ha, Hb.
  pose proof (N.div_mod a b ltac:(discriminate)) as Hdiv.
  pose proof (N.mod_lt a b ltac:(discriminate)) as Hlt.
  set (f := (a / b)%N) in *. set (r := (a mod b)%N) in *.
  destruct ((b <? 2 * r)%N || ((b =? 2 * r)%N && N.odd f)) eqn:Hup.
  - assert (b <= 2 * r)%N.
    { apply orb_true_iff in Hup as [H | H].
      - apply N.ltb_lt in H. lia.
      - apply andb_true_iff in H as [H _]. apply N.eqb_eq in H. lia. }
    nia.
  - apply orb_false_iff in Hup as [H _]. apply N.ltb_ge in H. nia.
Qed.

Section Console.

Variable pipeline : Outcome Pipe.

Lemma detect_run (t : str) (w w1 : World) (r : AnalysisResult) :
  analyze_text pipeline t w = (Ok r, w1) ->
  detect_ai_content pipeline t w = (Ok r, printed (console_summary r) w1).
Proof.
  intros H. unfold detect_ai_content. rewrite (bind_ok _ _ _ _ _ H).
  unfold console_summary, console_tier, is_fake, printed.
  destruct (str_eqb (label r) (lit "Fake"));
    [destruct (Qgtb (score r) 98); [|destruct (Qgtb (score r) 90)]|];
    unfold bind, print, ret; cbn [cache calls stdout];
    rewrite <- !app_assoc; reflexivity.
Qed.

Lemma tiers_agree (l : str) (s : Q) :
  console_tier l s = spec_tier l s <-> is_fake l = true \/ ~ 90 < s.
Proof.
  unfold console_tier, spec_tier. rewrite <- Qgtb_not_lt.
  destruct (is_fake l); [now intuition|].
  destruct (Qgtb s 98) eqn:H98.
  - assert (H90 : Qgtb s 90 = true).
    { apply Qgtb_lt. apply Qgtb_lt in H98. lra. }
    rewrite H90. split; [discriminate | intros [|]; discriminate].
  - destruct (Qgtb s 90); split; auto; try discriminate.
    intros [|]; discriminate.
Qed.

(** C3 (amended). The console summary looks at the label first: for the
    label [Fake] it prints the alert, the confidence with two decimal
    places, and the source message of the tier the thresholds select
    (above 98 the top tier, else above 90 the middle tier, else the basic
    tool); for any other label it prints the human-written statement and
    the confidence, whatever the score.  It agrees with the
    threshold-first selection of the specification exactly when the label
    is [Fake] or the score is not above 90; the page template makes the
    threshold-first selection.  A [Fake] label with a score above 98, such
    as 0.995 from the classifier, selects the top tier. *)
Theorem console_summary_tiers (t : str) (w w1 : World) (r : AnalysisResult) :
  analyze_text pipeline t w = (Ok r, w1) ->
  detect_ai_content pipeline t w = (Ok r, printed (console_summary r) w1)
  /\ (console_tier (label r) (score r) = spec_tier (label r) (score r)
      <-> is_fake (label r) = true \/ ~ 90 < score r)
  /\ (is_fake (label r) = false ->
      console_summary r
      = [LF :: lit "--- Analysis Result ---"; console_message HumanWritten;
         confidence_line (score r)])
  /\ (is_fake (label r) = true ->
      console_summary r
      = [LF :: lit "--- Analysis Result ---"; ALERT;
         confidence_line (score r);
         console_message (spec_tier (label r) (score r))])
  /\ (is_fake (label r) = true -> 98 < score r ->
      In (console_message TopTier) (console_summary r))
  /\ TEMPLATE_interpretation r
     = page_message (spec_tier (label r) (score r))
  /\ two_decimals (format_2f (score r))
  /\ (2 * Z.abs (Z.abs (Qnum (score r)) * 100
                 - Z.pos (Qden (score r))
                   * Z.of_N (round_hundredths (score r)))
      <= Z.pos (Qden (score r)))%Z.
Proof.
  intros H. split; [now apply detect_run|].
  split; [apply tiers_agree|].
  split; [|split; [|split; [|split; [|split]]]].
  - intros Hf. unfold console_summary, console_tier. now rewrite Hf.
  - intros Hf. unfold console_summary, console_tier, spec_tier.
    rewrite Hf.
    now destruct (Qgtb (score r) 98); [|destruct (Qgtb (score r) 90)].
  - intros Hf H98. apply Qgtb_lt in H98.
    unfold console_summary, console_tier. rewrite Hf, H98.
    cbn. auto.
  - unfold TEMPLATE_interpretation, spec_tier, is_fake.
    now destruct (Qgtb (score r) 98); [|destruct (Qgtb (score r) 90);
      [|destruct (str_eqb (label r) (lit "Fake"))]].
  - apply format_2f_two_decimals.
  - apply round_hundredths_nearest.
Qed.

End Console.

Lemma console_summary_tiers_witness :
  exists r w',
    detect_ai_content (Ok fake_stub) one_sentence fresh = (Ok r, w')
    /\ label r = lit "Fake" /\ score r = 0.995 * 100
    /\ In (console_message TopTier) (stdout w')
    /\ In (lit "Confidence Score: 99.50%") (stdout w').
Proof.
  destruct (analyze_text (Ok fake_stub) one_sentence fresh)
    as [[r|e] w1] eqn:E.
  - destruct (console_summary_tiers (Ok fake_stub) one_sentence fresh w1 r E)
      as (Hrun & _).
    exists r, (printed (console_summary r) w1). split; [exact Hrun|].
    vm_compute in E. injection E as <- <-.
    repeat split; vm_compute; auto 10.
  - vm_compute in E. discriminate E.
Defined.

Lemma console_ignores_thresholds_for_humans : ~ console_follows_thresholds.
Proof.
  intros H.
  destruct (detect_ai_content (Ok real_stub) one_sentence fresh)
    as [[r|e] w'] eqn:E.
  - specialize (H _ _ _ _ _ E). vm_compute in E. injection E as <- <-.
    vm_compute in H.
    repeat destruct H as [H | H]; (discriminate H || exact H).
  - vm_compute in E. discriminate E.
Qed.

(** What the console prints for a text classified [Real] at 0.99. *)
Example console_for_confident_human :
  exists r w',
    detect_ai_content (Ok real_stub) one_sentence fresh = (Ok r, w')
    /\ spec_tier (label r) (score r) = TopTier
    /\ console_tier (label r) (score r) = HumanWritten
    /\ skipn 1 (stdout w')
       = [LF :: lit "--- Analysis Result ---"; console_message HumanWritten;
          lit "Confidence Score: 99.00%"].
Proof.
  destruct (detect_ai_content (Ok real_stub) one_sentence fresh)
    as [[r|e] w'] eqn:E; vm_compute in E; [|discriminate E].
  injection E as <- <-. eexists _, _. split; [reflexivity|].
  repeat split; reflexivity.
Qed.

(** ** Pagination of the report *)

Lemma Qltb_lt (a b : Q) : Qltb a b = true <-> a < b.
Proof.
  unfold Qltb. rewrite negb_true_iff, <- not_true_iff_false, Qle_bool_iff.
  split; [apply Qnot_le_lt | apply Qlt_not_le].
Qed.

Lemma Qltb_ge (a b : Q) : Qltb a b = false <-> b <= a.
Proof.
  unfold Qltb. rewrite negb_false_iff. apply Qle_bool_iff.
Qed.

Lemma page_count_app (a b : list CanvasOp) :
  page_count (a ++ b) = (page_count a + page_count b)%nat.
Proof. unfold page_count. now rewrite filter_app, length_app. Qed.

Lemma count_cons (l : str) (ls : list str) : count (l :: ls) = count ls + 1.
Proof.
  unfold count. cbn [List.length].
  now rewrite Nat2Z.inj_succ, <- Z.add_1_r, inject_Z_plus.
Qed.

Lemma count_nonneg (ls : list str) : 0 <= count ls.
Proof.
  unfold count. change 0 with (inject_Z 0). rewrite <- Zle_Qle. lia.
Qed.

Lemma count_le (ls : list str) (n : nat) :
  (n <= List.length ls)%nat -> inject_Z (Z.of_nat n) <= count ls.
Proof. intros H. unfold count. rewrite <- Zle_Qle. lia. Qed.

Lemma count_ge (ls : list str) (n : nat) :
  (List.length ls <= n)%nat -> count ls <= inject_Z (Z.of_nat n).
Proof. intros H. unfold count. rewrite <- Zle_Qle. lia. Qed.

Section Cursor.

Variables H m : Q.

Lemma draw_wrapped_break (y : Q) (line : str) (rest : list str) :
  y < m + 20 ->
  draw_wrapped H m y (line :: rest)
  = ShowPage :: SetFont (lit "Helvetica") 10 :: DrawString m (H - m) line
      :: draw_wrapped H m (H - m - 14) rest.
Proof.
  intros Hy. apply Qltb_lt in Hy. cbn [draw_wrapped]. now rewrite Hy.
Qed.

Lemma draw_wrapped_stay (y : Q) (line : str) (rest : list str) :
  m + 20 <= y ->
  draw_wrapped H m y (line :: rest)
  = DrawString m y line :: draw_wrapped H m (y - 14) rest.
Proof.
  intros Hy. apply Qltb_ge in Hy. cbn [draw_wrapped]. now rewrite Hy.
Qed.

(** A fresh page has room for a line. *)
Hypothesis room : m + 20 <= H - m.

Lemma draw_wrapped_above (lines : list str) :
  forall y x y' s,
    In (DrawString x y' s) (draw_wrapped H m y lines) -> m + 20 <= y'.
Proof.
  induction lines as [|line rest IH]; intros y x y' s; [intros []|].
  destruct (Qlt_le_dec y (m + 20)) as [Hy | Hy].
  - rewrite (draw_wrapped_break _ _ _ Hy).
    intros [E | [E | [E | Hin]]]; try discriminate E.
    + injection E as _ <- _. exact room.
    + exact (IH _ _ _ _ Hin).
  - rewrite (draw_wrapped_stay _ _ _ Hy).
    intros [E | Hin].
    + injection E as _ <- _. exact Hy.
    + exact (IH _ _ _ _ Hin).
Qed.

Lemma draw_wrapped_fits (lines : list str) :
  forall y,
    m + 20 <= y - 14 * (count lines - 1) ->
    page_count (draw_wrapped H m y lines) = 0%nat.
Proof.
  induction lines as [|line rest IH]; intros y Hy; [reflexivity|].
  rewrite count_cons in Hy. pose proof (count_nonneg rest) as Hn.
  rewrite draw_wrapped_stay by lra.
  change (page_count (DrawString m y line :: ?l)) with (page_count l).
  apply IH. lra.
Qed.

Lemma draw_wrapped_overflows (lines : list str) :
  forall y,
    lines <> [] ->
    y - 14 * (count lines - 1) < m + 20 ->
    (1 <= page_count (draw_wrapped H m y lines))%nat.
Proof.
  induction lines as [|line rest IH]; intros y Hne Hy; [congruence|].
  rewrite count_cons in Hy.
  destruct (Qlt_le_dec y (m + 20)) as [Hlt | Hge].
  - rewrite (draw_wrapped_break _ _ _ Hlt). cbn. lia.
  - rewrite (draw_wrapped_stay _ _ _ Hge).
    change (page_count (DrawString m y line :: ?l)) with (page_count l).
    apply IH; [|lra].
    intros ->. change (count []) with 0 in Hy. lra.
Qed.

End Cursor.

Lemma report_ops (wrap : str -> nat -> list str) (analysis : AnalysisResult) :
  _create_pdf_report wrap analysis
  = header_ops analysis
      ++ draw_wrapped page_height margin text_start (wrap (text analysis) 90%nat)
      ++ [ShowPage; Save].
Proof. reflexivity. Qed.

Lemma page_has_room : margin + 20 <= page_height - margin.
Proof. apply Qle_bool_iff. vm_compute. reflexivity. Qed.

Lemma header_above (analysis : AnalysisResult) (x y : Q) (s : str) :
  In (DrawString x y s) (header_ops analysis) -> margin + 20 <= y.
Proof.
  unfold header_ops.
  intros [E | [E | [E | [E | [E | [E | [E | [E | []]]]]]]]];
    try discriminate E; injection E as _ <- _;
    apply Qle_bool_iff; vm_compute; reflexivity.
Qed.

Lemma budgets : first_page_budget = 47%nat /\ full_page_budget = 53%nat.
Proof. split; vm_compute; reflexivity. Qed.

Lemma report_page_count (wrap : str -> nat -> list str)
    (analysis : AnalysisResult) :
  page_count (_create_pdf_report wrap analysis)
  = S (page_count
         (draw_wrapped page_height margin text_start
            (wrap (text analysis) 90%nat))).
Proof.
  rewrite report_ops, !page_count_app.
  change (page_count (header_ops analysis)) with 0%nat.
  change (page_count [ShowPage; Save]) with 1%nat. lia.
Qed.

(** The number of page breaks of the loop, for a cursor under which [k]
    more lines fit and pages that hold [K] lines. *)
Section Breaks.

Variables H m : Q.
Variable K : nat.

Hypothesis K_positive : (1 <= K)%nat.
Hypothesis K_fit : m + 20 <= H - m - 14 * (inject_Z (Z.of_nat K) - 1).
Hypothesis K_full : H - m - 14 * inject_Z (Z.of_nat K) < m + 20.

Lemma pred_count :
  inject_Z (Z.of_nat (K - 1)) == inject_Z (Z.of_nat K) - 1.
Proof.
  unfold Qeq, Qminus, Qplus, Qopp, inject_Z. cbn [Qnum Qden]. lia.
Qed.

Lemma draw_wrapped_breaks (lines : list str) :
  forall y k,
    (k = 0%nat \/ m + 20 <= y - 14 * (inject_Z (Z.of_nat k) - 1)) ->
    y - 14 * inject_Z (Z.of_nat k) < m + 20 ->
    page_count (draw_wrapped H m y lines)
    = if (List.length lines <=? k)%nat then 0%nat
      else S ((List.length lines - k - 1) / K).
Proof.
  induction lines as [|line rest IH]; intros y k Hfit Hfull; [reflexivity|].
  destruct k as [|k'].
  - change (inject_Z (Z.of_nat 0)) with 0 in Hfull.
    rewrite draw_wrapped_break by lra.
    change (page_count (ShowPage :: SetFont ?f ?z :: DrawString ?a ?b ?c :: ?l))
      with (S (page_count l)).
    rewrite (IH (H - m - 14) (K - 1)%nat).
    + cbn [List.length Nat.leb]. f_equal.
      rewrite Nat.sub_0_r, Nat.sub_succ, Nat.sub_0_r.
      destruct (Nat.leb_spec (List.length rest) (K - 1)) as [Hle | Hgt].
      * symmetry. apply Nat.div_small. lia.
      * replace (List.length rest)
          with ((List.length rest - (K - 1) - 1) + 1 * K)%nat at 2 by lia.
        rewrite Nat.div_add by lia. lia.
    + destruct (Nat.eq_dec (K - 1) 0) as [E | E]; [now left | right].
      pose proof pred_count as Hp. lra.
    + pose proof pred_count as Hp. lra.
  - assert (Hk : inject_Z (Z.of_nat (S k')) = inject_Z (Z.of_nat k') + 1)
      by now rewrite Nat2Z.inj_succ, <- Z.add_1_r, inject_Z_plus.
    rewrite Hk in Hfit, Hfull.
    assert (0 <= inject_Z (Z.of_nat k')).
    { change 0 with (inject_Z 0). rewrite <- Zle_Qle. lia. }
    destruct Hfit as [Hfit | Hfit]; [discriminate|].
    rewrite draw_wrapped_stay by lra.
    change (page_count (DrawString m y line :: ?l)) with (page_count l).
    rewrite (IH (y - 14) k'); [reflexivity | | lra].
    destruct k'; [now left | right].
    lra.
Qed.

End Breaks.

Lemma report_page_count_exact (wrap : str -> nat -> list str)
    (analysis : AnalysisResult) :
  let n := List.length (wrap (text analysis) 90%nat) in
  page_count (_create_pdf_report wrap analysis)
  = S (if (n <=? first_page_budget)%nat then 0%nat
       else S ((n - first_page_budget - 1) / full_page_budget)).
Proof.
  intros n. rewrite report_page_count. f_equal.
  destruct budgets as [-> ->].
  apply (draw_wrapped_breaks page_height margin 53); try lia.
  - apply Qle_bool_iff. vm_compute. reflexivity.
  - apply Qltb_lt. vm_compute. reflexivity.
  - right. apply Qle_bool_iff. vm_compute. reflexivity.
  - apply Qltb_lt. vm_compute. reflexivity.
Qed.

(** C8. No line of the report is drawn below the bottom margin: every
    string is drawn at a height of at least [margin + 20].  When the
    cursor has fallen below that limit (so in particular when it has
    fallen below the margin), the loop emits a page break and draws the
    line at the top margin of the new page; otherwise it draws at the
    cursor.  The first page holds [first_page_budget] = 47 wrapped lines
    and a later page [full_page_budget] = 53: the report has more than one
    page exactly when the wrapped text has more than 47 lines, hence
    whenever it exceeds either budget. *)
Theorem report_pagination (wrap : str -> nat -> list str)
    (analysis : AnalysisResult) :
  let ops := _create_pdf_report wrap analysis in
  let lines := wrap (text analysis) 90%nat in
  (forall x y s, In (DrawString x y s) ops -> margin + 20 <= y /\ margin <= y)
  /\ (forall y line rest,
        y < margin + 20 ->
        draw_wrapped page_height margin y (line :: rest)
        = ShowPage :: SetFont (lit "Helvetica") 10
            :: DrawString margin (page_height - margin) line
            :: draw_wrapped page_height margin
                 (page_height - margin - 14) rest)
  /\ (forall y line rest,
        margin + 20 <= y ->
        draw_wrapped page_height margin y (line :: rest)
        = DrawString margin y line
            :: draw_wrapped page_height margin (y - 14) rest)
  /\ first_page_budget = 47%nat /\ full_page_budget = 53%nat
  /\ ((first_page_budget < List.length lines)%nat
      <-> (1 < page_count ops)%nat)
  /\ ((full_page_budget < List.length lines)%nat -> (1 < page_count ops)%nat).
Proof.
  intros ops lines.
  assert (Hpages : (first_page_budget < List.length lines)%nat
                   <-> (1 < page_count ops)%nat).
  { unfold ops. rewrite report_page_count. fold lines.
    destruct budgets as [-> _].
    assert (Hlow : text_start - 14 * 47 < margin + 20).
    { apply Qltb_lt. vm_compute. reflexivity. }
    assert (Hhigh : margin + 20 <= text_start - 14 * 46).
    { apply Qle_bool_iff. vm_compute. reflexivity. }
    split; intros Hn.
    - pose proof (count_le lines 48 Hn) as Hc.
      change (inject_Z (Z.of_nat 48)) with 48 in Hc.
      assert (Hne : lines <> []) by (intros E; rewrite E in Hn; cbn in Hn; lia).
      pose proof (draw_wrapped_overflows page_height margin lines
                    text_start Hne) as Ho.
      assert (text_start - 14 * (count lines - 1) < margin + 20) by lra.
      specialize (Ho H). lia.
    - destruct (Nat.le_gt_cases (List.length lines) 47) as [Hle | Hgt];
        [|exact Hgt].
      pose proof (count_ge lines 47 Hle) as Hc.
      change (inject_Z (Z.of_nat 47)) with 47 in Hc.
      rewrite draw_wrapped_fits in Hn by lra. lia. }
  split; [|split; [|split; [|split; [|split; [|split]]]]].
  - intros x y s Hin.
    assert (Hy : margin + 20 <= y); [|split; [exact Hy|unfold margin in *; lra]].
    unfold ops in Hin. rewrite report_ops in Hin.
    apply in_app_or in Hin as [Hin | Hin]; [now apply header_above in Hin|].
    apply in_app_or in Hin as [Hin | Hin].
    + exact (draw_wrapped_above page_height margin page_has_room
               _ _ _ _ _ Hin).
    + destruct Hin as [E | [E | []]]; discriminate E.
  - intros y line rest. apply draw_wrapped_break.
  - intros y line rest. apply draw_wrapped_stay.
  - apply budgets.
  - apply budgets.
  - exact Hpages.
  - intros Hn. apply Hpages. destruct budgets as [E1 E2].
    rewrite E1. rewrite E2 in Hn. lia.
Qed.

Lemma report_pagination_witness :
  let analysis := mkAnalysis (lit "Fake") 99.5 0.5 (repeat 120%N 48) [] [] in
  (first_page_budget < List.length (one_per_line (text analysis) 90%nat))%nat
  /\ (1 < page_count (_create_pdf_report one_per_line analysis))%nat.
Proof.
  intros analysis.
  assert (Hn : (first_page_budget
                < List.length (one_per_line (text analysis) 90%nat))%nat)
    by (vm_compute; lia).
  split; [exact Hn|].
  destruct (report_pagination one_per_line analysis)
    as (_ & _ & _ & _ & _ & Hpages & _).
  apply Hpages. exact Hn.
Defined.

Example report_of_hundred_lines :
  page_count
    (_create_pdf_report one_per_line
       (mkAnalysis (lit "Real") 60 40 (repeat 120%N 100) [] []))
  = 2%nat
  /\ page_count
       (_create_pdf_report one_per_line
          (mkAnalysis (lit "Real") 60 40 (repeat 120%N 101) [] []))
     = 3%nat.
Proof. split; vm_compute; reflexivity. Qed.

(** ** Text extracted from a Word document *)

Lemma text_from_document_kept (document : Document) :
  _text_from_document document
  = join_lines
      (List.map par_text
         (List.filter (fun p => negb (blank (par_text p)))
            (doc_paragraphs document))).
Proof.
  unfold _text_from_document. do 2 f_equal. apply filter_ext.
  intros p. apply truthy_strip.
Qed.

Lemma no_line_break_clean (p : str) :
  no_line_break p = true -> has_blank_line p = false.
Proof.
  induction p as [|c p IH]; [reflexivity|].
  unfold no_line_break in *. cbn [forallb has_blank_line].
  intros H. apply andb_true_iff in H as [Hc Hp].
  apply negb_true_iff in Hc. now rewrite Hc, (IH Hp).
Qed.

Lemma no_line_break_then (p rest : str) :
  no_line_break p = true ->
  has_blank_line (p ++ LF :: rest) = has_blank_line (LF :: rest).
Proof.
  induction p as [|c p IH]; [reflexivity|].
  unfold no_line_break in *. cbn [forallb]. intros H.
  apply andb_true_iff in H as [Hc Hp]. apply negb_true_iff in Hc.
  cbn [app]. rewrite <- (IH Hp). cbn [has_blank_line]. now rewrite Hc.
Qed.

Lemma join_lines_clean (ps : list str) :
  Forall (fun p => blank p = false /\ no_line_break p = true) ps ->
  has_blank_line (join_lines ps) = false
  /\ match join_lines ps with d :: _ => N.eqb d LF | [] => false end = false.
Proof.
  induction 1 as [|p ps [Hb Hp] _ [IH1 IH2]]; [auto|].
  assert (Hhead : forall tail,
             match p ++ tail with d :: _ => N.eqb d LF | [] => false end
             = false).
  { destruct p as [|c p']; [discriminate|]. intros tail.
    unfold no_line_break in Hp. cbn [forallb] in Hp.
    apply andb_true_iff in Hp as [Hc _]. now apply negb_true_iff in Hc. }
  destruct ps as [|q ps'].
  - cbn [join_lines]. split; [now apply no_line_break_clean|].
    specialize (Hhead []). now rewrite app_nil_r in Hhead.
  - change (join_lines (p :: q :: ps'))
      with (p ++ LF :: join_lines (q :: ps')).
    split; [|apply Hhead].
    rewrite (no_line_break_then _ _ Hp). cbn [has_blank_line].
    now rewrite IH1, IH2.
Qed.

Lemma join_lines_blank (p : str) (ps : list str) :
  blank p = false -> blank (join_lines (p :: ps)) = false.
Proof.
  intros Hb. destruct ps; [exact Hb|].
  change (blank (p ++ LF :: join_lines (s :: ps)) = false).
  now rewrite blank_app, Hb.
Qed.

(** C10. [_text_from_document] joins the texts of the paragraphs that are
    not blank with single line breaks.  Hence, for a document whose
    paragraph texts contain no line break, the paragraph splitter applied
    to the extracted text yields at most one paragraph: exactly one, the
    trimmed text, when the extracted text is not empty, and so never one
    entry per paragraph of a document with two or more non-blank
    paragraphs. *)
Theorem document_text_is_one_paragraph (document : Document) :
  let kept :=
    List.filter (fun p => negb (blank (par_text p)))
      (doc_paragraphs document) in
  let extracted := _text_from_document document in
  extracted = join_lines (List.map par_text kept)
  /\ (Forall (fun p => no_line_break (par_text p) = true)
        (doc_paragraphs document) ->
      has_blank_line extracted = false
      /\ (List.length (_paragraphs_from_text extracted) <= 1)%nat
      /\ (extracted <> [] ->
          _paragraphs_from_text extracted = [strip extracted])
      /\ (extracted = [] -> _paragraphs_from_text extracted = [])
      /\ ((2 <= List.length kept)%nat ->
          List.length (_paragraphs_from_text extracted)
          <> List.length kept)).
Proof.
  intros kept extracted.
  assert (Hext : extracted = join_lines (List.map par_text kept))
    by apply text_from_document_kept.
  split; [exact Hext|]. intros Hall.
  assert (Hkept : Forall (fun p => blank p = false /\ no_line_break p = true)
                    (List.map par_text kept)).
  { apply Forall_map. apply Forall_forall. intros p Hp.
    apply filter_In in Hp as [Hin Hb]. apply negb_true_iff in Hb.
    split; [exact Hb|]. rewrite Forall_forall in Hall. now apply Hall. }
  destruct (join_lines_clean _ Hkept) as [Hclean _]. rewrite <- Hext in Hclean.
  assert (Hone : extracted <> [] ->
                 _paragraphs_from_text extracted = [strip extracted]).
  { intros Hne. rewrite paragraphs_pieces.
    rewrite (split_blank_line_clean _ Hclean). cbn [List.filter].
    destruct (List.map par_text kept) as [|p ps] eqn:E;
      [now rewrite Hext in Hne|].
    inversion Hkept as [|? ? [Hb _] _]; subst.
    rewrite Hext, (join_lines_blank _ _ Hb). reflexivity. }
  assert (Hnone : extracted = [] -> _paragraphs_from_text extracted = [])
    by now intros ->.
  assert (Hlen : (List.length (_paragraphs_from_text extracted) <= 1)%nat).
  { destruct (list_eq_dec N.eq_dec extracted []) as [E | E];
      [rewrite (Hnone E) | rewrite (Hone E)]; cbn; lia. }
  repeat split; auto.
  intros H2 Heq. lia.
Qed.

Lemma document_text_is_one_paragraph_witness :
  let document :=
    mkDocument [mkParagraph (lit "First paragraph."); mkParagraph (lit "  ");
                mkParagraph (lit "Second one.")] in
  _text_from_document document
  = lit "First paragraph." ++ LF :: lit "Second one."
  /\ _paragraphs_from_text (_text_from_document document)
     = [lit "First paragraph." ++ LF :: lit "Second one."].
Proof.
  intros document.
  destruct (document_text_is_one_paragraph document) as [Hext Hrest].
  split; [rewrite Hext; reflexivity|].
  destruct Hrest as (_ & _ & Hone & _).
  - repeat constructor.
  - rewrite Hone by discriminate. reflexivity.
Defined.

Lemma read_docx_text (Path Bytes : Type)
    (Document_of_path : Path -> Outcome Document)
    (Document_of_bytes : Bytes -> Outcome Document)
    (path : Path) (contents : Bytes) (document : Document) (w : World) :
  (Document_of_path path = Ok document ->
   read_docx_file Document_of_path path w
   = (Ok (_text_from_document document), w))
  /\ (Document_of_bytes contents = Ok document ->
      read_docx_bytes Document_of_bytes contents w
      = (Ok (_text_from_document document), w)).
Proof.
  unfold read_docx_file, read_docx_bytes, bind, lift, ret.
  split; now intros ->.
Qed.

(** ** Paragraphs of an analysis *)

Lemma paragraphs_pieces_clean (t : str) (pieces : list str) :
  Paragraphs t pieces -> Forall (fun p => has_blank_line p = false) pieces.
Proof.
  induction 1 as [p Hp | p rest pieces Hp _ IH]; constructor; auto.
  now apply has_blank_line_prefix in Hp.
Qed.

(** C7. The paragraph splitter cuts the text at each blank line (two
    consecutive line breaks, leftmost first): the fragments joined by blank
    lines give the text back and none contains a blank line; each fragment
    is trimmed and the empty ones are dropped.  For two paragraphs
    separated by a blank line, the [paragraphs] of the analysis are the
    two trimmed paragraphs, and neither contains the separator. *)
Theorem paragraphs_at_blank_lines :
  (forall t,
      exists pieces,
        Paragraphs t pieces
        /\ (forall other, Paragraphs t other -> other = pieces)
        /\ join_blank_line pieces = t
        /\ Forall (fun p => has_blank_line p = false) pieces
        /\ _paragraphs_from_text t
           = List.map strip (List.filter (fun p => negb (blank p)) pieces))
  /\ (forall t p,
        In p (_paragraphs_from_text t) ->
        p <> [] /\ strip p = p /\ has_blank_line p = false)
  /\ (forall p1 p2,
        blank p1 = false -> blank p2 = false ->
        has_blank_line p1 = false -> has_blank_line p2 = false ->
        _paragraphs_from_text (p1 ++ LF :: LF :: p2) = [strip p1; strip p2]
        /\ forall pipeline w r w',
             analyze_text pipeline (p1 ++ LF :: LF :: p2) w = (Ok r, w') ->
             paragraphs r = [strip p1; strip p2]
             /\ List.length (paragraphs r) = 2%nat
             /\ Forall (fun p => strip p = p /\ has_blank_line p = false)
                  (paragraphs r)).
Proof.
  split; [|split].
  - intros t. exists (split_blank_line t).
    pose proof (paragraphs_complete t) as Hc.
    split; [exact Hc|]. split; [|split; [|split]].
    + intros other H. symmetry. now apply paragraphs_sound.
    + now apply paragraphs_join.
    + now apply paragraphs_pieces_clean with (t := t).
    + apply paragraphs_pieces.
  - apply paragraphs_trimmed.
  - intros p1 p2 B1 B2 H1 H2.
    pose proof (paragraphs_of_two p1 p2 B1 B2 H1 H2) as Htwo.
    split; [exact Htwo|].
    intros pipeline w r w' Hr.
    apply analyze_text_ok_inv in Hr
      as (_ & _ & _ & _ & _ & _ & _ & _ & _ & Hpar & _).
    rewrite Hpar, Htwo. split; [reflexivity|]. split; [reflexivity|].
    rewrite <- Htwo. apply Forall_forall. intros p Hp.
    now apply paragraphs_trimmed in Hp.
Qed.

Lemma paragraphs_at_blank_lines_witness :
  _paragraphs_from_text
    (lit " First paragraph. " ++ LF :: LF :: lit "Second one, on two" ++ LF
       :: lit "lines.  ")
  = [lit "First paragraph."; lit "Second one, on two" ++ LF :: lit "lines."].
Proof.
  destruct paragraphs_at_blank_lines as (_ & _ & H).
  destruct (H (lit " First paragraph. ")
              (lit "Second one, on two" ++ LF :: lit "lines.  ")
              eq_refl eq_refl eq_refl eq_refl)
    as [Htwo _].
  exact Htwo.
Defined.

Example paragraphs_with_long_gap :
  _paragraphs_from_text (lit "a" ++ [LF; LF; LF; LF; LF] ++ lit "b" ++ [LF])
  = [lit "a"; lit "b"].
Proof. reflexivity. Qed.

(** * Further properties *)

(** ** What segmentation keeps *)

Lemma spaced_pad (g : str) (parts : list str) (s : str) :
  blank g = true -> Spaced parts s -> Spaced parts (g ++ s).
Proof.
  intros Hg [g' Hg' | g' p rest parts' Hg' Hrest].
  - apply spaced_end. now rewrite blank_app, Hg, Hg'.
  - rewrite app_assoc. apply spaced_part; [|exact Hrest].
    now rewrite blank_app, Hg, Hg'.
Qed.

(** One fragment, trimmed and kept if it is not blank, in front of parts
    that follow after whitespace. *)
Lemma spaced_fragment (p gap rest : str) (parts : list str) :
  blank gap = true -> Spaced parts rest ->
  Spaced
    (List.map strip (List.filter (fun s => negb (blank s)) [p]) ++ parts)
    (p ++ gap ++ rest).
Proof.
  intros Hg Hrest. cbn [List.filter]. destruct (blank p) eqn:Hp; cbn.
  - apply spaced_pad; [exact Hp|]. now apply spaced_pad.
  - destruct (strip_decompose p) as (a & b & Hs & Ha & Hb & _).
    rewrite Hs at 2. rewrite <- !app_assoc.
    apply spaced_part; [exact Ha|].
    apply spaced_pad; [exact Hb|]. now apply spaced_pad.
Qed.

Lemma visible_blank (g : str) : blank g = true -> visible g = [].
Proof.
  induction g as [|c g IH]; [reflexivity|].
  unfold blank, visible in *. cbn [forallb List.filter].
  intros H. apply andb_true_iff in H as [Hc Hg]. rewrite Hc. cbn. auto.
Qed.

Lemma spaced_visible (parts : list str) (s : str) :
  Spaced parts s -> visible s = List.concat (List.map visible parts).
Proof.
  induction 1 as [g Hg | g p rest parts Hg _ IH].
  - now apply visible_blank.
  - unfold visible in *. rewrite !filter_app. fold (visible g).
    rewrite (visible_blank g Hg). cbn. now rewrite IH.
Qed.

Lemma spaced_substring (parts : list str) (s p : str) :
  Spaced parts s -> In p parts -> exists pre post, s = pre ++ p ++ post.
Proof.
  induction 1 as [g Hg | g q rest parts Hg _ IH]; intros Hin; [destruct Hin|].
  destruct Hin as [-> | Hin].
  - now exists g, rest.
  - destruct (IH Hin) as (pre & post & ->).
    exists (g ++ q ++ pre), post. now rewrite <- !app_assoc.
Qed.

Lemma sentences_spaced (t : str) (pieces : list str) :
  Sentences t pieces ->
  Spaced (List.map strip (List.filter (fun s => negb (blank s)) pieces)) t.
Proof.
  induction 1 as [p Hp | p gap rest pieces Hp He Hne Hg Hr _ IH].
  - rewrite <- (app_nil_r p) at 2.
    rewrite <- (app_nil_r (List.map strip _)).
    apply (spaced_fragment p [] [] []); [reflexivity|].
    now apply spaced_end.
  - change (p :: pieces) with ([p] ++ pieces).
    rewrite filter_app, map_app. now apply spaced_fragment.
Qed.

(** X1. Splitting into sentences loses nothing but whitespace: the
    sentences occur in the text in their order, separated and surrounded
    by whitespace only; so each is a substring of the text, and the text
    and the sentences show the same non-whitespace characters. *)
Theorem split_sentences_keeps_text (t : str) :
  Spaced (_split_sentences t) t
  /\ visible t = List.concat (List.map visible (_split_sentences t))
  /\ (forall s, In s (_split_sentences t) ->
        exists pre post, t = pre ++ s ++ post).
Proof.
  assert (H : Spaced (_split_sentences t) t).
  { rewrite split_sentences_pieces.
    apply sentences_spaced, sentences_complete. }
  split; [exact H|]. split; [now apply spaced_visible|].
  intros s Hs. now apply spaced_substring with (parts := _split_sentences t).
Qed.

Lemma boundary_free_suffix (a s : str) :
  boundary_free (a ++ s) = true -> boundary_free s = true.
Proof.
  induction a as [|c a IH]; [auto|].
  cbn [app boundary_free]. intros H.
  apply andb_true_iff in H as [_ H]. auto.
Qed.

Lemma boundary_free_prefix (m b : str) :
  boundary_free (m ++ b) = true -> boundary_free m = true.
Proof.
  induction m as [|c m IH]; [reflexivity|].
  cbn [app boundary_free]. intros H.
  apply andb_true_iff in H as [Hc H]. rewrite (IH H), andb_true_r.
  destruct m as [|d m']; [now rewrite andb_false_r | exact Hc].
Qed.

Lemma boundary_free_strip (s : str) :
  boundary_free s = true -> boundary_free (strip s) = true.
Proof.
  destruct (strip_decompose s) as (a & b & Hs & _).
  intros H. rewrite Hs in H.
  now apply boundary_free_suffix, boundary_free_prefix in H.
Qed.

Lemma ends_with_mark_snoc (s : str) (c : char) :
  ends_with_mark (s ++ [c]) = terminal c.
Proof.
  induction s as [|d s IH]; [reflexivity|].
  cbn [app]. destruct (s ++ [c]) eqn:E; [now destruct s|].
  exact IH.
Qed.

Lemma snoc_cases {A} (l : list A) : l = [] \/ exists l' x, l = l' ++ [x].
Proof.
  destruct l as [|y l]; [now left | right].
  destruct (exists_last (l := y :: l)) as (l' & x & E); [discriminate|].
  now exists l', x.
Qed.

Lemma ends_with_mark_strip (s : str) :
  ends_with_mark s = true -> ends_with_mark (strip s) = true.
Proof.
  intros H. destruct (strip_decompose s) as (a & b & Hs & Ha & Hb & _).
  remember (strip s) as m eqn:Em. clear Em.
  destruct (snoc_cases s) as [-> | (s' & c & ->)]; [discriminate|].
  rewrite ends_with_mark_snoc in H.
  pose proof (terminal_not_space c H) as Hsp.
  destruct (snoc_cases b) as [-> | (b' & x & ->)].
  - rewrite app_nil_r in Hs.
    destruct (snoc_cases m) as [-> | (m' & y & ->)].
    + rewrite app_nil_r in Hs. subst a. rewrite blank_app in Ha.
      cbn in Ha. rewrite Hsp in Ha. now rewrite andb_false_r in Ha.
    + rewrite app_assoc in Hs. apply app_inj_tail in Hs as [_ <-].
      now rewrite ends_with_mark_snoc.
  - rewrite !app_assoc in Hs. apply app_inj_tail in Hs as [_ <-].
    rewrite blank_app in Hb. cbn in Hb. rewrite Hsp in Hb.
    now rewrite andb_false_r in Hb.
Qed.

Lemma ends_with_mark_visible (s : str) :
  ends_with_mark s = true -> blank s = false.
Proof.
  intros H. destruct (snoc_cases s) as [-> | (s' & c & ->)]; [discriminate|].
  rewrite ends_with_mark_snoc in H. rewrite blank_app. cbn.
  now rewrite (terminal_not_space c H), andb_false_r.
Qed.

Lemma sentences_marks (t : str) (pieces : list str) :
  Sentences t pieces ->
  let parts :=
    List.map strip (List.filter (fun s => negb (blank s)) pieces) in
  Forall (fun s => boundary_free s = true) parts
  /\ Forall (fun s => ends_with_mark s = true) (removelast parts).
Proof.
  induction 1 as [p Hp | p gap rest pieces Hp He Hne Hg Hr _ [IH1 IH2]];
    cbn zeta in *.
  - cbn [List.filter]. destruct (blank p); cbn; split; auto.
    constructor; [now apply boundary_free_strip | constructor].
  - cbn [List.filter]. rewrite (ends_with_mark_visible p He).
    cbn [negb List.map]. split.
    + constructor; [now apply boundary_free_strip | exact IH1].
    + destruct (List.map strip
                  (List.filter (fun s => negb (blank s)) pieces))
        as [|q parts] eqn:E; [constructor|].
      change (removelast (strip p :: q :: parts))
        with (strip p :: removelast (q :: parts)).
      constructor; [now apply ends_with_mark_strip | exact IH2].
Qed.

(** X2. Every sentence but the last ends with a terminal mark, and inside
    a sentence no terminal mark is directly followed by whitespace: the
    splitter cuts at every boundary there is. *)
Theorem split_sentences_shape (t : str) :
  Forall (fun s => boundary_free s = true) (_split_sentences t)
  /\ Forall (fun s => ends_with_mark s = true)
       (removelast (_split_sentences t)).
Proof.
  rewrite split_sentences_pieces.
  exact (sentences_marks t (re_split t) (sentences_complete t)).
Qed.

Lemma paragraphs_spaced (t : str) (pieces : list str) :
  Paragraphs t pieces ->
  Spaced (List.map strip (List.filter (fun p => negb (blank p)) pieces)) t.
Proof.
  induction 1 as [p Hp | p rest pieces Hp _ IH].
  - rewrite <- (app_nil_r p) at 2.
    rewrite <- (app_nil_r (List.map strip _)).
    apply (spaced_fragment p [] [] []); [reflexivity|].
    now apply spaced_end.
  - change (p :: pieces) with ([p] ++ pieces).
    rewrite filter_app, map_app.
    apply (spaced_fragment p [LF; LF] rest); [reflexivity | exact IH].
Qed.

(** X3. Splitting into paragraphs loses nothing but whitespace: the
    paragraphs occur in the text in their order, separated and surrounded
    by whitespace only, and the text and the paragraphs show the same
    non-whitespace characters. *)
Theorem paragraphs_keep_text (t : str) :
  Spaced (_paragraphs_from_text t) t
  /\ visible t = List.concat (List.map visible (_paragraphs_from_text t))
  /\ (forall p, In p (_paragraphs_from_text t) ->
        exists pre post, t = pre ++ p ++ post).
Proof.
  assert (H : Spaced (_paragraphs_from_text t) t).
  { rewrite paragraphs_pieces.
    apply paragraphs_spaced, paragraphs_complete. }
  split; [exact H|]. split; [now apply spaced_visible|].
  intros p Hp.
  now apply spaced_substring with (parts := _paragraphs_from_text t).
Qed.

(** ** Text of a document *)

Lemma join_lines_substring (ps : list str) (p : str) :
  In p ps -> exists pre post, join_lines ps = pre ++ p ++ post.
Proof.
  induction ps as [|q ps IH]; [intros []|].
  intros [-> | Hin].
  - destruct ps as [|q' ps'].
    + exists [], []. cbn. now rewrite app_nil_r.
    + exists [], (LF :: join_lines (q' :: ps')). reflexivity.
  - destruct ps as [|q' ps']; [destruct Hin|].
    destruct (IH Hin) as (pre & post & E).
    exists (q ++ LF :: pre), post.
    change (join_lines (q :: q' :: ps'))
      with (q ++ LF :: join_lines (q' :: ps')).
    rewrite E. now rewrite <- app_assoc.
Qed.

(** X4. The text extracted from a document is empty exactly when the
    document has no paragraph that is not blank; otherwise it is not blank
    either, so testing the text for emptiness tests it for blankness.
    Every paragraph that is not blank occurs in the text unchanged. *)
Theorem document_text_empty_or_visible (document : Document) :
  let kept :=
    List.filter (fun p => negb (blank (par_text p)))
      (doc_paragraphs document) in
  let extracted := _text_from_document document in
  (extracted = [] <-> kept = [])
  /\ blank extracted = negb (truthy extracted)
  /\ (forall p, In p kept ->
        exists pre post, extracted = pre ++ par_text p ++ post).
Proof.
  intros kept extracted.
  assert (Hext : extracted = join_lines (List.map par_text kept))
    by apply text_from_document_kept.
  assert (Hvis : kept <> [] -> blank extracted = false).
  { intros Hne. destruct kept as [|p ps] eqn:E; [congruence|].
    assert (Hp : In p kept) by (rewrite E; now left).
    apply filter_In in Hp as [_ Hp]. apply negb_true_iff in Hp.
    rewrite Hext. cbn [List.map]. now apply join_lines_blank. }
  split; [|split].
  - split.
    + intros He. destruct kept as [|p ps] eqn:E; [reflexivity|].
      rewrite He in Hvis. discriminate Hvis. discriminate.
    + intros Hk. rewrite Hext, Hk. reflexivity.
  - destruct kept as [|p ps] eqn:E.
    + rewrite Hext. reflexivity.
    + rewrite Hvis by discriminate.
      destruct extracted; [|reflexivity].
      specialize (Hvis ltac:(discriminate)). discriminate Hvis.
  - intros p Hp. rewrite Hext.
    apply join_lines_substring, in_map, Hp.
Qed.

(** ** The log, the cache and the output of an analysis *)

Section Bookkeeping.

Variable pipeline : Outcome Pipe.

Lemma loaded_cached (w : World) (pipe : Pipe) :
  cache w = Some pipe -> loaded pipeline w = w.
Proof.
  intros H. unfold loaded, _load_detector_pipe. now rewrite H.
Qed.

Lemma loaded_ok (w : World) (pipe : Pipe) :
  current_pipe pipeline w = Ok pipe ->
  cache (loaded pipeline w) = Some pipe
  /\ stdout (loaded pipeline w)
     = stdout w ++ match cache w with None => [LOADING] | Some _ => [] end.
Proof.
  unfold loaded, current_pipe, _load_detector_pipe.
  destruct (cache w) eqn:E; cbn.
  - intros [= ->]. now rewrite app_nil_r.
  - now intros ->.
Qed.

(** The world an analysis leaves, whatever its outcome. *)
Lemma analysis_world (t : str) (w : World) (pipe : Pipe) :
  current_pipe pipeline w = Ok pipe ->
  let w' := snd (analyze_text pipeline t w) in
  calls w' = calls w ++ analysis_calls pipeline w t
  /\ cache w' = cache (loaded pipeline w)
  /\ stdout w' = stdout (loaded pipeline w).
Proof.
  intros Hp. cbn zeta. unfold analysis_calls.
  rewrite (analyze_text_run _ _ _ _ Hp), Hp. cbn zeta.
  destruct (loaded_logged pipeline (doc_call t) w pipe Hp) as [Hl Hp2].
  rewrite (analyze_sentences_run _ _ _ _ Hp2), Hl.
  destruct (pipe (doc_call t)) as [[|first rest]|e]; cbn;
    rewrite ?loaded_calls; auto.
  destruct (_split_sentences t) as [|s ss]; cbn;
    rewrite ?loaded_calls, <- ?app_assoc; auto.
  destruct (match pipe (batch_call (s :: ss)) with
            | Ok rs => sentence_entries (s :: ss) 0 rs
            | Raise e => Raise e
            end); cbn; rewrite ?loaded_calls, <- ?app_assoc; auto.
Qed.

Lemma model_cache_after (t : str) (w : World) (pipe : Pipe) :
  current_pipe pipeline w = Ok pipe ->
  cache (snd (analyze_text pipeline t w)) = Some pipe
  /\ stdout (snd (analyze_text pipeline t w))
     = stdout w ++ match cache w with None => [LOADING] | Some _ => [] end.
Proof.
  intros Hp. destruct (analysis_world t w pipe Hp) as (_ & Hc & Ho).
  destruct (loaded_ok w pipe Hp) as [Hc' Ho']. split; congruence.
Qed.

Lemma analysis_calls_same (other : Outcome Pipe) (w1 w2 : World) (t : str) :
  current_pipe pipeline w1 = current_pipe other w2 ->
  analysis_calls pipeline w1 t = analysis_calls other w2 t.
Proof. unfold analysis_calls. now intros ->. Qed.

(** The outcome of an analysis depends on the world only through the
    pipeline it gets. *)
Lemma analysis_outcome (other : Outcome Pipe) (w1 w2 : World) (t : str) :
  current_pipe pipeline w1 = current_pipe other w2 ->
  fst (analyze_text pipeline t w1) = fst (analyze_text other t w2).
Proof.
  intros H. destruct (current_pipe pipeline w1) as [pipe|e] eqn:H1;
    symmetry in H.
  - rewrite (analyze_text_run _ _ _ _ H1), (analyze_text_run _ _ _ _ H).
    cbn zeta.
    destruct (loaded_logged pipeline (doc_call t) w1 pipe H1) as [_ Hp1].
    destruct (loaded_logged other (doc_call t) w2 pipe H) as [_ Hp2].
    rewrite (analyze_sentences_run _ _ _ _ Hp1),
      (analyze_sentences_run _ _ _ _ Hp2).
    destruct (pipe (doc_call t)) as [[|first rest]|e]; try reflexivity.
    destruct (_split_sentences t) as [|s ss]; [reflexivity|].
    destruct (pipe (batch_call (s :: ss))) as [rs|e]; [|reflexivity].
    now destruct (sentence_entries (s :: ss) 0 rs).
  - now rewrite (analyze_text_load_fails _ _ _ _ H1),
      (analyze_text_load_fails _ _ _ _ H).
Qed.

Lemma analysis_call_log_any (t : str) (w : World) :
  calls (snd (analyze_text pipeline t w))
  = calls w ++ analysis_calls pipeline w t.
Proof.
  destruct (current_pipe pipeline w) as [pipe|e] eqn:Hp.
  - now apply analysis_world with (pipe := pipe).
  - rewrite (analyze_text_load_fails _ _ _ _ Hp). cbn [snd].
    unfold analysis_calls. now rewrite Hp, app_nil_r, loaded_calls.
Qed.

Lemma analysis_call_log_bound (t : str) (w : World) :
  (List.length (analysis_calls pipeline w t) <= 2)%nat.
Proof.
  unfold analysis_calls.
  destruct (current_pipe pipeline w) as [pipe|e]; [|cbn; lia].
  destruct (pipe (doc_call t)) as [[|first rest]|e];
    destruct (_split_sentences t) as [|s ss]; cbn; lia.
Qed.

(** X5. Whatever its outcome, an analysis makes at most two pipeline
    calls: the document call, then at most one batch call with all the
    sentences at once (made when the document call returned a prediction
    and there is a sentence), never one call per sentence; every call asks
    for truncation at 512.  When the pipeline cannot be loaded no call is
    made. *)
Theorem analysis_call_log (t : str) (w : World) :
  let w' := snd (analyze_text pipeline t w) in
  calls w' = calls w ++ analysis_calls pipeline w t
  /\ (List.length (analysis_calls pipeline w t) <= 2)%nat
  /\ Forall (fun c => call_truncation c = true
                      /\ call_max_length c = 512%nat)
       (analysis_calls pipeline w t)
  /\ (forall c, In c (analysis_calls pipeline w t) ->
        c = doc_call t \/ c = batch_call (_split_sentences t)).
Proof.
  cbn zeta. split; [apply analysis_call_log_any|].
  - unfold analysis_calls.
    destruct (current_pipe pipeline w) as [pipe|e].
    2:{ cbn. repeat split; auto. intros c []. }
    destruct (pipe (doc_call t)) as [[|first rest]|e];
      destruct (_split_sentences t) as [|s ss] eqn:Es; cbn [List.length];
      (split; [lia|]); (split; [repeat constructor|]);
      intros c Hin; cbn in Hin; intuition (subst; auto).
Qed.

(** X6. The model is loaded once: an analysis that gets a pipeline leaves
    it in the cache, and announces the loading only if the cache was empty;
    with a filled cache the analysis does not depend on what loading would
    do, so a loader that has started to fail does no harm. *)
Theorem model_loaded_once (t : str) (w : World) (pipe : Pipe) :
  current_pipe pipeline w = Ok pipe ->
  let w' := snd (analyze_text pipeline t w) in
  cache w' = Some pipe
  /\ stdout w'
     = stdout w ++ match cache w with None => [LOADING] | Some _ => [] end
  /\ (cache w = Some pipe ->
      forall other, analyze_text other t w = analyze_text pipeline t w).
Proof.
  intros Hp. cbn zeta.
  destruct (model_cache_after t w pipe Hp) as [Hc Ho].
  split; [exact Hc|]. split; [exact Ho|].
  intros Hw other.
  assert (Hq : current_pipe other w = Ok pipe)
    by (unfold current_pipe; now rewrite Hw).
  rewrite (analyze_text_run other _ _ _ Hq), (analyze_text_run _ _ _ _ Hp).
  unfold loaded, _load_detector_pipe. rewrite Hw. cbn [snd].
  assert (Hq2 : current_pipe other (logged (doc_call t) w) = Ok pipe)
    by (unfold current_pipe; cbn; now rewrite Hw).
  assert (Hp2 : current_pipe pipeline (logged (doc_call t) w) = Ok pipe)
    by (unfold current_pipe; cbn; now rewrite Hw).
  rewrite (analyze_sentences_run other _ _ _ Hq2),
    (analyze_sentences_run _ _ _ _ Hp2).
  unfold loaded, _load_detector_pipe. cbn [cache logged]. rewrite Hw.
  reflexivity.
Qed.

End Bookkeeping.

(** X7. A load that fails is not cached: the analysis raises the loader's
    exception after announcing the loading, makes no call and leaves the
    cache empty, so the next analysis tries to load again and gives what
    it would have given in the first place. *)
Theorem failed_load_is_retried (t : str) (w : World) (e : PyExn) :
  cache w = None ->
  let w' := snd (analyze_text (Raise e) t w) in
  fst (analyze_text (Raise e) t w) = Raise e
  /\ cache w' = None
  /\ calls w' = calls w
  /\ stdout w' = stdout w ++ [LOADING]
  /\ (forall later,
        fst (analyze_text later t w') = fst (analyze_text later t w)).
Proof.
  intros Hw. cbn zeta.
  assert (Hp : current_pipe (Raise e) w = Raise e)
    by (unfold current_pipe; now rewrite Hw).
  rewrite (analyze_text_load_fails _ _ _ _ Hp). cbn [fst snd].
  unfold loaded, _load_detector_pipe. rewrite Hw. cbn.
  repeat split; auto.
  intros later. apply analysis_outcome.
  unfold current_pipe. cbn. now rewrite Hw.
Qed.

Lemma failed_load_is_retried_witness :
  fst (analyze_text (Raise (LibraryError (lit "offline"))) one_sentence fresh)
  = Raise (LibraryError (lit "offline"))
  /\ exists r w'',
       analyze_text (Ok fake_stub) one_sentence
         (snd (analyze_text (Raise (LibraryError (lit "offline")))
                 one_sentence fresh))
       = (Ok r, w'')
       /\ stdout w'' = [LOADING; LOADING].
Proof.
  destruct (failed_load_is_retried one_sentence fresh
              (LibraryError (lit "offline")) eq_refl)
    as (H1 & _ & _ & _ & H5).
  split; [exact H1|].
  specialize (H5 (Ok fake_stub)).
  destruct (analyze_text (Ok fake_stub) one_sentence
              (snd (analyze_text (Raise (LibraryError (lit "offline")))
                      one_sentence fresh)))
    as [[r|e] w''] eqn:E.
  - exists r, w''. split; [reflexivity|].
    vm_compute in E. injection E as _ <-. reflexivity.
  - cbn [fst] in H5. vm_compute in H5. discriminate H5.
Defined.

(** X8. Analysing the same text again, after an analysis that returned a
    result, returns the same result, whatever loading would do by then; it
    prints nothing and makes the same pipeline calls once more. *)
Theorem repeated_analysis (pipeline : Outcome Pipe) (t : str) (w w' : World)
    (r : AnalysisResult) :
  analyze_text pipeline t w = (Ok r, w') ->
  forall later,
  exists w'',
    analyze_text later t w' = (Ok r, w'')
    /\ stdout w'' = stdout w'
    /\ calls w'' = calls w' ++ analysis_calls pipeline w t.
Proof.
  intros H later.
  destruct (analyze_text_ok_inv pipeline t w w' r H)
    as (pipe & _ & _ & Hp & _).
  destruct (model_cache_after pipeline t w pipe Hp) as [Hc _].
  rewrite H in Hc. cbn [snd] in Hc.
  assert (Hq : current_pipe later w' = Ok pipe)
    by (unfold current_pipe; now rewrite Hc).
  pose proof (analysis_outcome later pipeline w' w t) as Ho.
  rewrite Hq, Hp, H in Ho. specialize (Ho eq_refl). cbn [fst] in Ho.
  destruct (analyze_text later t w') as [o w''] eqn:E. cbn [fst] in Ho.
  subst o. exists w''. split; [reflexivity|].
  destruct (analysis_world later t w' pipe Hq) as (Hcalls & _ & Hout).
  rewrite E in Hcalls, Hout. cbn [snd] in Hcalls, Hout.
  rewrite (loaded_cached later w' pipe Hc) in Hout.
  split; [exact Hout|]. rewrite Hcalls. f_equal.
  apply analysis_calls_same. congruence.
Qed.

Lemma split_sentences_keeps_text_witness :
  exists pre post, two_sentences = pre ++ lit "Two." ++ post.
Proof.
  destruct (split_sentences_keeps_text two_sentences) as (_ & _ & H).
  apply H. vm_compute. auto.
Defined.

Lemma paragraphs_keep_text_witness :
  exists pre post,
    lit "Intro." ++ [LF; LF] ++ lit "Body. " = pre ++ lit "Body." ++ post.
Proof.
  destruct (paragraphs_keep_text (lit "Intro." ++ [LF; LF] ++ lit "Body. "))
    as (_ & _ & H).
  apply H. vm_compute. auto.
Defined.

Lemma document_text_empty_or_visible_witness :
  exists pre post,
    _text_from_document
      (mkDocument [mkParagraph (lit " "); mkParagraph (lit "Kept. ")])
    = pre ++ lit "Kept. " ++ post.
Proof.
  destruct (document_text_empty_or_visible
              (mkDocument [mkParagraph (lit " "); mkParagraph (lit "Kept. ")]))
    as (_ & _ & H).
  apply (H (mkParagraph (lit "Kept. "))). vm_compute. auto.
Defined.

Lemma analysis_call_log_witness :
  calls (snd (analyze_text (Ok human_stub) quirky fresh))
  = [doc_call quirky; batch_call (_split_sentences quirky)].
Proof.
  destruct (analysis_call_log (Ok human_stub) quirky fresh) as (H & _).
  exact H.
Defined.

Lemma model_loaded_once_witness :
  cache (snd (analyze_text (Ok fake_stub) one_sentence fresh))
  = Some fake_stub
  /\ stdout (snd (analyze_text (Ok fake_stub) one_sentence fresh))
     = [LOADING].
Proof.
  destruct (model_loaded_once (Ok fake_stub) one_sentence fresh fake_stub
              eq_refl)
    as (H1 & H2 & _).
  split; [exact H1 | exact H2].
Defined.

Lemma repeated_analysis_witness :
  exists r w' w'',
    analyze_text (Ok fake_stub) one_sentence fresh = (Ok r, w')
    /\ analyze_text (Raise (LibraryError (lit "offline"))) one_sentence w'
       = (Ok r, w'')
    /\ stdout w'' = stdout w'.
Proof.
  destruct (analyze_text (Ok fake_stub) one_sentence fresh)
    as [[r|e] w'] eqn:E.
  - destruct (repeated_analysis (Ok fake_stub) one_sentence fresh w' r E
                (Raise (LibraryError (lit "offline"))))
      as (w'' & H1 & H2 & _).
    exists r, w', w''. auto.
  - vm_compute in E. discriminate E.
Defined.

(** ** Predictions that do not match the inputs *)

(** X9. [analyze_text] trusts the pipeline to return one prediction per
    input and checks nothing: an empty answer to the document call raises
    [IndexError]; fewer predictions than sentences give a result with only
    that many entries, for the first sentences; more predictions than
    sentences raise [IndexError]. *)
Theorem prediction_count_mismatch (pipeline : Outcome Pipe) (t : str)
    (w : World) (pipe : Pipe) :
  current_pipe pipeline w = Ok pipe ->
  (pipe (doc_call t) = Ok [] ->
   fst (analyze_text pipeline t w) = Raise IndexError)
  /\ (forall first rest rs,
        pipe (doc_call t) = Ok (first :: rest) ->
        _split_sentences t <> [] ->
        pipe (batch_call (_split_sentences t)) = Ok rs ->
        ((List.length rs <= List.length (_split_sentences t))%nat ->
         exists r w',
           analyze_text pipeline t w = (Ok r, w')
           /\ List.map sent_sentence (sentences r)
              = firstn (List.length rs) (_split_sentences t))
        /\ ((List.length (_split_sentences t) < List.length rs)%nat ->
            fst (analyze_text pipeline t w) = Raise IndexError)).
Proof.
  intros Hp. split.
  - intros Hd. now rewrite (analyze_text_run _ _ _ _ Hp), Hd.
  - intros first rest rs Hd Hne Hb. split.
    + intros Hlen.
      destruct (analyze_text_ok pipeline t w pipe first rest rs Hp Hd)
        as (r & w' & Hr); [right; auto|].
      exists r, w'. split; [exact Hr|].
      apply analyze_text_ok_inv in Hr
        as (pipe' & _ & _ & Hp' & _ & _ & _ & _ & _ & _ & Hsent).
      assert (pipe' = pipe) by congruence. subst pipe'.
      destruct Hsent as [(Hss & _) | (rs' & _ & Hb' & He & _)];
        [contradiction|].
      assert (rs' = rs) by congruence. subst rs'.
      now apply sentence_entries_inv in He as [_ Hm].
    + intros Hlen. rewrite (analyze_text_run _ _ _ _ Hp), Hd. cbn zeta.
      destruct (loaded_logged pipeline (doc_call t) w pipe Hp) as [_ Hp2].
      rewrite (analyze_sentences_run _ _ _ _ Hp2).
      destruct (_split_sentences t) as [|s ss] eqn:Es; [congruence|].
      rewrite Hb, sentence_entries_overrun; [reflexivity | | exact Hlen].
      intros ->. cbn in Hlen. lia.
Qed.

Lemma prediction_count_mismatch_witness :
  (exists r w',
      analyze_text (Ok (fixed_pipe 1)) two_sentences fresh = (Ok r, w')
      /\ List.map sent_sentence (sentences r) = [lit "One."])
  /\ fst (analyze_text (Ok (fixed_pipe 3)) two_sentences fresh)
     = Raise IndexError
  /\ fst (analyze_text (Ok (fixed_pipe 0)) two_sentences fresh)
     = Raise IndexError.
Proof.
  destruct (prediction_count_mismatch (Ok (fixed_pipe 1)) two_sentences fresh
              (fixed_pipe 1) eq_refl) as [_ H1].
  destruct (prediction_count_mismatch (Ok (fixed_pipe 3)) two_sentences fresh
              (fixed_pipe 3) eq_refl) as [_ H3].
  destruct (prediction_count_mismatch (Ok (fixed_pipe 0)) two_sentences fresh
              (fixed_pipe 0) eq_refl) as [H0 _].
  split; [|split].
  - destruct (H1 (mkPrediction (lit "Real") 0.9) []
                [mkPrediction (lit "Real") 0.9] eq_refl
                ltac:(discriminate) eq_refl) as [H _].
    destruct H as (r & w' & Hr & Hm); [vm_compute; lia|].
    exists r, w'. split; [exact Hr | exact Hm].
  - destruct (H3 (mkPrediction (lit "Real") 0.9)
                (repeat (mkPrediction (lit "Real") 0.9) 2)
                (repeat (mkPrediction (lit "Real") 0.9) 3) eq_refl
                ltac:(discriminate) eq_refl) as [_ H].
    apply H. vm_compute. lia.
  - apply H0. reflexivity.
Defined.

(** ** The report *)

Lemma drawn_text_app (a b : list CanvasOp) :
  drawn_text (a ++ b) = drawn_text a ++ drawn_text b.
Proof. unfold drawn_text. apply flat_map_app. Qed.

Lemma draw_wrapped_text (H m : Q) (lines : list str) :
  forall y, drawn_text (draw_wrapped H m y lines) = lines.
Proof.
  induction lines as [|line rest IH]; intros y; [reflexivity|].
  cbn [draw_wrapped]. destruct (Qltb y (m + 20)); cbn; now rewrite IH.
Qed.

Lemma draw_report_text (wrap : str -> nat -> list str)
    (analysis : AnalysisResult) :
  drawn_text (_create_pdf_report wrap analysis)
  = report_heading analysis ++ wrap (text analysis) 90%nat.
Proof.
  rewrite report_ops, !drawn_text_app, draw_wrapped_text.
  cbn. now rewrite app_nil_r.
Qed.

(** X10. The report shows its four heading strings and then every wrapped
    line of the text, once each and in order: page breaks drop and repeat
    nothing. *)
Theorem report_shows_every_line (wrap : str -> nat -> list str)
    (analysis : AnalysisResult) :
  drawn_text (_create_pdf_report wrap analysis)
  = report_heading analysis ++ wrap (text analysis) 90%nat.
Proof. apply draw_report_text. Qed.

(** X11. The number of pages of the report, from the number [n] of wrapped
    lines: one page up to 47 lines, and beyond that one more page for
    every 53 lines begun; a report always has a page, also for an empty
    text. *)
Theorem report_page_number (wrap : str -> nat -> list str)
    (analysis : AnalysisResult) :
  let n := List.length (wrap (text analysis) 90%nat) in
  page_count (_create_pdf_report wrap analysis)
  = (if (n <=? 47)%nat then 1 else 2 + (n - 48) / 53)%nat
  /\ (1 <= page_count (_create_pdf_report wrap analysis))%nat.
Proof.
  intros n. pose proof (report_page_count_exact wrap analysis) as H.
  cbn zeta in H. fold n in H. destruct budgets as [E1 E2].
  rewrite E1, E2 in H. rewrite H.
  destruct (n <=? 47)%nat; split; try lia.
  replace (n - 47 - 1)%nat with (n - 48)%nat by lia. lia.
Qed.

Lemma trimmed_visible (s : str) : s <> [] -> strip s = s -> blank s = false.
Proof.
  intros Hne Hs. destruct (blank s) eqn:Hb; [|reflexivity].
  rewrite (strip_blank s Hb) in Hs. congruence.
Qed.

Lemma blank_strip (s : str) : blank (strip s) = blank s.
Proof.
  destruct (blank s) eqn:Hb.
  - now rewrite (strip_blank s Hb).
  - apply trimmed_visible; [|apply strip_idempotent].
    intros E. apply strip_nil_blank in E. congruence.
Qed.

(** The texts an analysis of a text that is not blank hands to the
    classifier are not blank. *)
Lemma analysis_texts_visible (pipeline : Outcome Pipe) (w : World) (t : str) :
  blank t = false ->
  Forall (fun c => Forall (fun s => blank s = false) (call_texts c))
    (analysis_calls pipeline w t).
Proof.
  intros Hb. unfold analysis_calls.
  destruct (current_pipe pipeline w) as [pipe|e]; [|constructor].
  constructor; [now repeat constructor|].
  destruct (pipe (doc_call t)) as [[|first rest]|e]; try constructor.
  destruct (_split_sentences t) as [|s ss] eqn:Es; constructor;
    [|constructor].
  rewrite <- Es. apply Forall_forall. intros x Hx.
  apply split_sentences_trimmed in Hx as [Hne Hs].
  now apply trimmed_visible.
Qed.

(** X12. The view [report] analyses the trimmed text of the form.  A blank
    text is answered with status 400 and nothing else happens; otherwise
    the classifier sees only texts that are not blank, an exception of the
    analysis propagates out of the view, and a result is answered with the
    PDF of that result, which shows the heading and the wrapped trimmed
    text. *)
Theorem report_view (wrap : str -> nat -> list str)
    (pipeline : Outcome Pipe) (form_text : option str) (w : World) :
  let t := strip (match form_text with Some t => t | None => [] end) in
  let run := report wrap pipeline form_text w in
  (blank t = true ->
   run = (Ok (TextResponse (lit "Text is required for report generation")
                400), w))
  /\ (blank t = false ->
      calls (snd run) = calls w ++ analysis_calls pipeline w t
      /\ Forall (fun c => Forall (fun s => blank s = false) (call_texts c))
           (analysis_calls pipeline w t)
      /\ (forall e w', analyze_text pipeline t w = (Raise e, w') ->
            run = (Raise e, w'))
      /\ (forall a w', analyze_text pipeline t w = (Ok a, w') ->
            run = (Ok (SendFile (_create_pdf_report wrap a)
                         (lit "ai_detection_report.pdf")
                         (lit "application/pdf")), w')
            /\ drawn_text (_create_pdf_report wrap a)
               = report_heading a ++ wrap t 90%nat)).
Proof.
  intros t run. unfold run, report. cbv zeta. fold t.
  assert (Ht : truthy t = negb (blank t))
    by (unfold t; now rewrite truthy_strip, blank_strip).
  rewrite Ht.
  split; intros Hb; rewrite Hb; cbn [negb]; [reflexivity|].
  split; [|split; [now apply analysis_texts_visible|split]].
  - pose proof (analysis_call_log_any pipeline t w) as Hc.
    unfold bind. destruct (analyze_text pipeline t w) as [[a|e] w'];
      exact Hc.
  - intros e w' H. now rewrite (bind_raise _ _ _ _ _ H).
  - intros a w' H. rewrite (bind_ok _ _ _ _ _ H). split; [reflexivity|].
    rewrite draw_report_text.
    apply analyze_text_ok_inv in H
      as (_ & _ & _ & _ & _ & _ & _ & _ & Htext & _).
    now rewrite Htext.
Qed.

Lemma report_view_witness :
  exists a w',
    analyze_text (Ok fake_stub) one_sentence fresh = (Ok a, w')
    /\ report one_per_line (Ok fake_stub) (Some (lit "  Generated text. "))
         fresh
       = (Ok (SendFile (_create_pdf_report one_per_line a)
                (lit "ai_detection_report.pdf") (lit "application/pdf")),
          w').
Proof.
  destruct (report_view one_per_line (Ok fake_stub)
              (Some (lit "  Generated text. ")) fresh) as [_ H].
  destruct (H eq_refl) as (_ & _ & _ & Hok).
  destruct (analyze_text (Ok fake_stub) one_sentence fresh)
    as [[a|e] w'] eqn:E.
  - exists a, w'. split; [reflexivity|].
    now destruct (Hok a w' E) as [Hrun _].
  - vm_compute in E. discriminate E.
Defined.

(** ** The index view *)

Section IndexView.

Variable pipeline : Outcome Pipe.
Variable lower : str -> str.
Variable Bytes : Type.
Variable Document_of_bytes : Bytes -> Outcome Document.

(** X13. A page of the index view never carries both an error and a
    result: a result comes without error, only for a POST, and is what
    [analyze_text] returns for the very text the page echoes, run in the
    world the view was entered in and leaving the world the view leaves;
    an error comes without result and without any effect (no pipeline
    call, nothing printed); a GET gives the empty page. *)
Theorem index_page_invariant (request : Request Bytes) (w w' : World)
    (page : Page) :
  index pipeline lower Document_of_bytes request w = (Ok page, w') ->
  (forall r, page_result page = Some r ->
     page_error page = None
     /\ analyze_text pipeline (page_submitted_text page) w = (Ok r, w')
     /\ text r = page_submitted_text page
     /\ method request = POST)
  /\ (forall msg, page_error page = Some msg ->
        page_result page = None /\ w' = w)
  /\ (method request = GET -> page = mkPage None None [] /\ w' = w).
Proof.
  unfold index. destruct (method request).
  { intros [= <- <-]. repeat split; try discriminate; auto. }
  intros H. apply bind_ok_inv in H as ([error submitted] & w1 & Hstate & H).
  assert (Hw : w1 = w
               /\ (error = None
                   \/ error = Some (lit "Please upload a .docx file.")
                   \/ error = Some (lit "Provide text or upload a document."))).
  { revert Hstate. unfold read_docx_bytes, bind, lift, ret.
    destruct (files_document request) as [up|];
      [destruct (truthy (filename up));
       [destruct (negb (endswith (lower (filename up)) (lit ".docx")));
        [|destruct (Document_of_bytes (contents up))]|]|];
      try destruct (negb (truthy _));
      intros [= <- <- <-] || intros [=]; auto. }
  destruct Hw as [-> Herr].
  destruct error as [msg|].
  - injection H as <- <-. cbn. repeat split; try discriminate; auto.
  - apply bind_ok_inv in H as (r & w2 & Hr & H). injection H as <- <-.
    cbn. split; [|split; [discriminate|discriminate]].
    intros r' [= <-]. split; [reflexivity|]. split; [exact Hr|].
    split; [|reflexivity].
    now apply analyze_text_ok_inv in Hr
      as (_ & _ & _ & _ & _ & _ & _ & _ & Htext & _).
Qed.

(** X14. An upload with a file name decides the request alone.  If the
    lowered name does not end in [.docx], the page is the error page and
    the file is not opened, even when text was pasted too.  Otherwise the
    pasted text is ignored: an exception of the document parser leaves the
    view, and a parsed document has its extracted text analysed as it
    is. *)
Theorem upload_decides (up : Upload Bytes) (w : World) :
  truthy (filename up) = true ->
  (endswith (lower (filename up)) (lit ".docx") = false ->
   forall pasted,
     index pipeline lower Document_of_bytes (mkRequest POST (Some up) pasted) w
     = (Ok (mkPage (Some (lit "Please upload a .docx file.")) None
              (strip (match pasted with Some t => t | None => [] end))),
        w))
  /\ (endswith (lower (filename up)) (lit ".docx") = true ->
      (forall pasted other,
          index pipeline lower Document_of_bytes (mkRequest POST (Some up) pasted) w
          = index pipeline lower Document_of_bytes (mkRequest POST (Some up) other) w)
      /\ (forall pasted e,
            Document_of_bytes (contents up) = Raise e ->
            index pipeline lower Document_of_bytes (mkRequest POST (Some up) pasted) w = (Raise e, w))
      /\ (forall pasted document,
            Document_of_bytes (contents up) = Ok document ->
            index pipeline lower Document_of_bytes (mkRequest POST (Some up) pasted) w
            = match analyze_text pipeline (_text_from_document document) w
              with
              | (Ok r, w') =>
                  (Ok (mkPage None (Some r) (_text_from_document document)),
                   w')
              | (Raise e, w') => (Raise e, w')
              end)).
Proof.
  intros Hname. unfold index.
  cbv beta iota delta [method files_document form_text].
  rewrite Hname. split; intros Hext; rewrite Hext; cbn [negb].
  - reflexivity.
  - unfold read_docx_bytes, bind, lift, ret. split; [reflexivity|]. split.
    + intros pasted e ->. reflexivity.
    + intros pasted document ->.
      now destruct (analyze_text pipeline (_text_from_document document) w)
        as [[r|e] w'].
Qed.

End IndexView.

Lemma index_page_invariant_witness :
  exists page w',
    index (Ok fake_stub) (fun s => s) (fun _ : unit => Ok (mkDocument []))
      (mkRequest POST None (Some one_sentence)) fresh
    = (Ok page, w')
    /\ (forall r, page_result page = Some r ->
          analyze_text (Ok fake_stub) (page_submitted_text page) fresh
          = (Ok r, w')
          /\ text r = page_submitted_text page).
Proof.
  destruct (index (Ok fake_stub) (fun s => s)
              (fun _ : unit => Ok (mkDocument []))
              (mkRequest POST None (Some one_sentence)) fresh)
    as [[page|e] w'] eqn:E.
  - exists page, w'. split; [reflexivity|].
    destruct (index_page_invariant (Ok fake_stub) (fun s => s) unit
                (fun _ => Ok (mkDocument [])) _ _ _ _ E) as (H & _).
    intros r Hr. destruct (H r Hr) as (_ & Ha & Ht & _).
    split; [exact Ha | exact Ht].
  - vm_compute in E. discriminate E.
Defined.

Lemma upload_decides_witness :
  index (Ok fake_stub) (fun s => s) (fun _ : unit => Ok (mkDocument []))
    (mkRequest POST (Some (mkUpload (lit "notes.txt") tt))
       (Some one_sentence)) fresh
  = (Ok (mkPage (Some (lit "Please upload a .docx file.")) None one_sentence),
     fresh).
Proof.
  destruct (upload_decides (Ok fake_stub) (fun s => s) unit
              (fun _ => Ok (mkDocument []))
              (mkUpload (lit "notes.txt") tt) fresh eq_refl) as [H _].
  exact (H eq_refl (Some one_sentence)).
Defined.

(** ** The command line *)

Lemma text_from_document_truthy (document : Document) :
  truthy (_text_from_document document) = true ->
  blank (_text_from_document document) = false.
Proof.
  rewrite text_from_document_kept.
  destruct (List.filter (fun p => negb (blank (par_text p)))
              (doc_paragraphs document)) as [|p ps] eqn:E;
    [discriminate|].
  intros _. cbn [List.map]. apply join_lines_blank.
  assert (Hp : In p (p :: ps)) by now left.
  rewrite <- E in Hp. apply filter_In in Hp as [_ Hp].
  now apply negb_true_iff in Hp.
Qed.

Lemma strip_truthy (s : str) :
  truthy (strip s) = true -> blank (strip s) = false.
Proof.
  rewrite truthy_strip, blank_strip. now intros H%negb_true_iff.
Qed.

Lemma ask_again_answer (blanks : list str) (answer : str) (rest : list str) :
  Forall (fun a => blank a = true) blanks -> blank answer = false ->
  ask_again (blanks ++ answer :: rest)
  = (Some (strip answer),
     repeat (lit "Text cannot be empty. Try again: ")
       (S (List.length blanks))).
Proof.
  intros Hb Ha. induction Hb as [|b bs Hb _ IH]; cbn [app ask_again].
  - now rewrite truthy_strip, Ha.
  - now rewrite truthy_strip, Hb, IH.
Qed.

Lemma ask_again_eof (answers : list str) :
  Forall (fun a => blank a = true) answers ->
  ask_again answers
  = (None,
     repeat (lit "Text cannot be empty. Try again: ")
       (S (List.length answers))).
Proof.
  induction 1 as [|b bs Hb _ IH]; cbn [ask_again]; [reflexivity|].
  now rewrite truthy_strip, Hb, IH.
Qed.

Lemma ask_some (answers : list str) (t : str) (prompts : list str) :
  ask answers = (Some t, prompts) -> blank t = false.
Proof.
  assert (Hagain : forall l t' ps,
             ask_again l = (Some t', ps) -> blank t' = false).
  { induction l as [|a l IH]; intros t' ps; cbn [ask_again];
      [discriminate|].
    destruct (truthy (strip a)) eqn:Ha.
    - intros [= <- _]. now apply strip_truthy.
    - destruct (ask_again l) as [o ps'] eqn:E. intros [= -> _]. eauto. }
  destruct answers as [|a l]; cbn [ask]; [discriminate|].
  destruct (truthy (strip a)) eqn:Ha.
  - intros [= <- _]. now apply strip_truthy.
  - destruct (ask_again l) as [o ps'] eqn:E. intros [= -> _]. eauto.
Qed.

Lemma detect_calls (pipeline : Outcome Pipe) (t : str) (w : World) :
  calls (snd (detect_ai_content pipeline t w))
  = calls w ++ analysis_calls pipeline w t.
Proof.
  rewrite <- analysis_call_log_any.
  destruct (analyze_text pipeline t w) as [[r|e] w1] eqn:E.
  - now rewrite (detect_run _ _ _ _ _ E).
  - unfold detect_ai_content. now rewrite (bind_raise _ _ _ _ _ E).
Qed.

Section CommandLine.

Variable pipeline : Outcome Pipe.
Variable lower : str -> str.
Variable Path : Type.
Variable path_exists : Path -> bool.
Variable path_suffix : Path -> str.
Variable path_str : Path -> str.
Variable Document_of_path : Path -> Outcome Document.

(** How [main] goes on once it has its text. *)
Lemma main_cases (args : Args Path) (stdin : Stdin) (w : World) :
  (exists msg,
      main pipeline lower path_exists path_suffix path_str Document_of_path args stdin w
      = (Returned, snd (fst (main pipeline lower path_exists path_suffix path_str Document_of_path args stdin w)), printed [msg] w)
      /\ (msg = lit "No text provided. Exiting."
          \/ msg = lit "Only .docx files are supported."
          \/ exists doc, msg = lit "Document not found: " ++ path_str doc))
  \/ (exists e, main pipeline lower path_exists path_suffix path_str Document_of_path args stdin w = (Uncaught e, [], w)
                /\ exists doc, Document_of_path doc = Raise e)
  \/ (exists prompts, main pipeline lower path_exists path_suffix path_str Document_of_path args stdin w = (UncaughtEOFError, prompts, w)
                      /\ args_doc args = None)
  \/ (exists t,
         blank t = false
         /\ main pipeline lower path_exists path_suffix path_str Document_of_path args stdin w
            = (match fst (detect_ai_content pipeline t w) with
               | Ok _ => Returned
               | Raise e => Uncaught e
               end,
               snd (fst (main pipeline lower path_exists path_suffix path_str Document_of_path args stdin w)),
               snd (detect_ai_content pipeline t w))).
Proof.
  assert (Hfin : forall (t : str) (prompts : list str),
             (truthy t = true -> blank t = false) ->
             (if negb (truthy t)
              then (Returned, prompts,
                    snd (print (lit "No text provided. Exiting.") w))
              else match detect_ai_content pipeline t w with
                   | (Ok _, w2) => (Returned, prompts, w2)
                   | (Raise e, w2) => (Uncaught e, prompts, w2)
                   end)
             = (Returned, prompts,
                printed [lit "No text provided. Exiting."] w)
             \/ (blank t = false
                 /\ (if negb (truthy t)
                     then (Returned, prompts,
                           snd (print (lit "No text provided. Exiting.") w))
                     else match detect_ai_content pipeline t w with
                          | (Ok _, w2) => (Returned, prompts, w2)
                          | (Raise e, w2) => (Uncaught e, prompts, w2)
                          end)
                    = (match fst (detect_ai_content pipeline t w) with
                       | Ok _ => Returned
                       | Raise e => Uncaught e
                       end, prompts,
                       snd (detect_ai_content pipeline t w)))).
  { intros t prompts Ht. destruct (truthy t); cbn [negb].
    - right. split; [auto|].
      now destruct (detect_ai_content pipeline t w) as [[r|e] w2].
    - now left. }
  unfold main.
  destruct (args_doc args) as [doc|] eqn:Hdoc.
  - destruct (path_exists doc); cbn [negb].
    + destruct (str_eqb (lower (path_suffix doc)) (lit ".docx")); cbn [negb].
      * unfold read_docx_file, bind, lift, ret.
        destruct (Document_of_path doc) as [document|e] eqn:Hd.
        -- destruct (Hfin (_text_from_document document) []
                       (text_from_document_truthy document)) as [E | [Hb E]];
             rewrite E.
           ++ left. eexists. split; [reflexivity | auto].
           ++ right. right. right. eexists. split; [exact Hb | reflexivity].
        -- right. left. exists e. split; [reflexivity | eauto].
      * left. eexists. split; [reflexivity | auto].
    + left. eexists. split; [reflexivity | eauto].
  - assert (Hstrip : forall s, truthy (strip s) = true
                               -> blank (strip s) = false)
      by apply strip_truthy.
    destruct (match args_text args with
              | Some t => if truthy t then Some t else None
              | None => None
              end) as [t|].
    + destruct (Hfin (strip t) [] (Hstrip t)) as [E | [Hb E]]; rewrite E.
      * left. eexists. split; [reflexivity | auto].
      * right. right. right. eexists. split; [exact Hb | reflexivity].
    + destruct stdin as [answers | content].
      * destruct (ask answers) as [[t|] prompts] eqn:Ha.
        -- destruct (Hfin t prompts (fun _ => ask_some _ _ _ Ha))
             as [E | [Hb E]]; rewrite E.
           ++ left. eexists. split; [reflexivity | auto].
           ++ right. right. right. eexists.
              split; [exact Hb | reflexivity].
        -- right. right. left. eexists. split; [reflexivity | reflexivity].
      * destruct (Hfin (strip content) [] (Hstrip content))
          as [E | [Hb E]]; rewrite E.
        -- left. eexists. split; [reflexivity | auto].
        -- right. right. right. eexists. split; [exact Hb | reflexivity].
Qed.

(** X15. Whatever the arguments and the input, [main] hands the classifier
    only texts that are not blank, in at most two pipeline calls. *)
Theorem main_classifies_visible_text (args : Args Path) (stdin : Stdin)
    (w : World) :
  exists new,
    calls (snd (main pipeline lower path_exists path_suffix path_str Document_of_path args stdin w)) = calls w ++ new
    /\ (List.length new <= 2)%nat
    /\ Forall (fun c => Forall (fun s => blank s = false) (call_texts c)) new.
Proof.
  destruct (main_cases args stdin w)
    as [(msg & -> & _) | [(e & -> & _) | [(ps & -> & _) | (t & Hb & ->)]]];
    cbn [snd].
  - exists []. rewrite app_nil_r. repeat split; auto.
  - exists []. rewrite app_nil_r. repeat split; auto.
  - exists []. rewrite app_nil_r. repeat split; auto.
  - exists (analysis_calls pipeline w t). split; [apply detect_calls|].
    split; [|now apply analysis_texts_visible].
    apply (analysis_call_log_bound pipeline t w).
Qed.

(** X16. [main] does not return in silence: when it returns, it has either
    printed one message (no text, not a [.docx] file, or document not
    found) and called nothing, or printed the summary of an analysis that
    returned a result. *)
Theorem main_returns_with_output (args : Args Path) (stdin : Stdin)
    (w w' : World) (prompts : list str) :
  main pipeline lower path_exists path_suffix path_str Document_of_path args stdin w = (Returned, prompts, w') ->
  (exists msg,
      w' = printed [msg] w
      /\ (msg = lit "No text provided. Exiting."
          \/ msg = lit "Only .docx files are supported."
          \/ exists doc, msg = lit "Document not found: " ++ path_str doc))
  \/ (exists t r w1,
         blank t = false
         /\ analyze_text pipeline t w = (Ok r, w1)
         /\ w' = printed (console_summary r) w1).
Proof.
  intros H.
  destruct (main_cases args stdin w)
    as [(msg & E & Hmsg) | [(e & E & _) | [(ps & E & _) | (t & Hb & E)]]];
    rewrite E in H.
  - left. exists msg. injection H as _ <-. auto.
  - discriminate H.
  - discriminate H.
  - right. destruct (analyze_text pipeline t w) as [[r|e] w1] eqn:Ea.
    + rewrite (detect_run _ _ _ _ _ Ea) in H. cbn [fst snd] in H.
      injection H as _ <-. now exists t, r, w1.
    + unfold detect_ai_content in H.
      rewrite (bind_raise _ _ _ _ _ Ea) in H. discriminate H.
Qed.

(** X17. On a terminal, blank answers are asked again: with any number of
    blank answers before the first one that is not blank, [main] goes on
    exactly as if that answer had been given with [--text], after one
    prompt and one more for every blank answer; when only blank answers
    come before the end of input, [EOFError] leaves [main] and nothing is
    classified. *)
Theorem terminal_answers (blanks : list str) (answer : str)
    (rest : list str) (w : World) :
  Forall (fun a => blank a = true) blanks ->
  (blank answer = false ->
   forall given,
     main pipeline lower path_exists path_suffix path_str Document_of_path (mkArgs None None) (Terminal (blanks ++ answer :: rest)) w
     = (fst (fst (main pipeline lower path_exists path_suffix path_str Document_of_path (mkArgs (Some answer) None) given w)),
        lit "Enter text to analyze: "
        :: repeat (lit "Text cannot be empty. Try again: ")
             (List.length blanks),
        snd (main pipeline lower path_exists path_suffix path_str Document_of_path (mkArgs (Some answer) None) given w)))
  /\ main pipeline lower path_exists path_suffix path_str Document_of_path (mkArgs None None) (Terminal blanks) w
     = (UncaughtEOFError,
        lit "Enter text to analyze: "
        :: repeat (lit "Text cannot be empty. Try again: ")
             (List.length blanks),
        w).
Proof.
  intros Hb. split.
  - intros Ha given.
    assert (Hask : ask (blanks ++ answer :: rest)
                   = (Some (strip answer),
                      lit "Enter text to analyze: "
                      :: repeat (lit "Text cannot be empty. Try again: ")
                           (List.length blanks))).
    { destruct Hb as [|b bs Hb Hbs]; cbn [app ask].
      - now rewrite truthy_strip, Ha.
      - now rewrite truthy_strip, Hb, (ask_again_answer bs answer rest Hbs Ha). }
    assert (Hne : truthy answer = true).
    { destruct answer; [discriminate Ha | reflexivity]. }
    unfold main. cbv beta iota delta [args_doc args_text].
    rewrite Hask, Hne.
    destruct (negb (truthy (strip answer))); [reflexivity|].
    now destruct (detect_ai_content pipeline (strip answer) w)
      as [[r|e] w2].
  - unfold main. cbv beta iota delta [args_doc args_text].
    destruct Hb as [|b bs Hb Hbs]; cbn [ask]; [reflexivity|].
    now rewrite truthy_strip, Hb, (ask_again_eof bs Hbs).
Qed.

End CommandLine.

Lemma main_returns_with_output_witness :
  exists t r w1,
    analyze_text (Ok fake_stub) t fresh = (Ok r, w1)
    /\ snd (main (Ok fake_stub) (fun s => s) (fun _ : unit => true)
              (fun _ => lit ".docx") (fun _ => lit "a.docx")
              (fun _ => Ok (mkDocument []))
              (mkArgs (Some (lit " Generated text. ")) None) (Piped []) fresh)
       = printed (console_summary r) w1.
Proof.
  set (run := main (Ok fake_stub) (fun s => s) (fun _ : unit => true)
                (fun _ => lit ".docx") (fun _ => lit "a.docx")
                (fun _ => Ok (mkDocument []))
                (mkArgs (Some (lit " Generated text. ")) None) (Piped [])
                fresh).
  assert (E : run = (Returned, [], snd run)) by (vm_compute; reflexivity).
  destruct (main_returns_with_output _ _ _ _ _ _ _ _ _ _ _ _ E)
    as [(msg & Hw & _) | (t & r & w1 & _ & Ha & Hw)].
  - apply (f_equal calls) in Hw. vm_compute in Hw. discriminate Hw.
  - exists t, r, w1. split; [exact Ha | exact Hw].
Defined.

Lemma terminal_answers_witness :
  main (Ok fake_stub) (fun s => s) (fun _ : unit => true)
    (fun _ => lit ".docx") (fun _ => lit "a.docx")
    (fun _ => Ok (mkDocument []))
    (mkArgs None None) (Terminal [lit "  "; []; one_sentence; lit "unread"])
    fresh
  = (Returned,
     [lit "Enter text to analyze: "; lit "Text cannot be empty. Try again: ";
      lit "Text cannot be empty. Try again: "],
     snd (main (Ok fake_stub) (fun s => s) (fun _ : unit => true)
            (fun _ => lit ".docx") (fun _ => lit "a.docx")
            (fun _ => Ok (mkDocument []))
            (mkArgs (Some one_sentence) None) (Piped []) fresh)).
Proof.
  destruct (terminal_answers (Ok fake_stub) (fun s => s) unit
              (fun _ => true) (fun _ => lit ".docx") (fun _ => lit "a.docx")
              (fun _ => Ok (mkDocument []))
              [lit "  "; []] one_sentence [lit "unread"] fresh)
    as [H _].
  - repeat constructor.
  - etransitivity; [exact (H eq_refl (Piped []))|]. reflexivity.
Defined.

Example main_document_not_found :
  main (Ok fake_stub) (fun s => s) (fun _ : unit => false)
    (fun _ => lit ".docx") (fun _ => lit "a.docx")
    (fun _ => Raise (LibraryError (lit "no such file")))
    (mkArgs (Some one_sentence) (Some tt)) (Piped one_sentence) fresh
  = (Returned, [], printed [lit "Document not found: a.docx"] fresh).
Proof. reflexivity. Qed.
